(** * A2A client (src/a2a-client.ts): shallow embedding and properties

    The development follows the class [A2AClient]: JavaScript strings are
    sequences of UTF-16 code units, a response body is a sequence of byte
    chunks handed out by [reader.read()], and every method is a function from
    the session (the object's mutable fields) to a result and the session
    after the call.

    Inputs are taken at their TypeScript types ([Task], [JsonRpcResponse]).
    [requestId] is a natural number (the source counts in a double).  Not
    modelled: the [log] helper (debug output under [--verbose]) and the
    command-line drivers. *)

From Stdlib Require Import List NArith ZArith Bool Lia.
From Stdlib.Strings Require Import String Ascii Byte.
From Stdlib Require Import DecimalString.
Import ListNotations.
Local Open Scope N_scope.

(* ------------------------------------------------------------------------ *)
(** ** JavaScript strings *)

Module JsString.

(** A string value: its UTF-16 code units. *)
Definition jsstring := list N.

(** A literal of the source, written with ASCII characters only. *)
Definition js (s : string) : jsstring :=
  map N_of_ascii (list_ascii_of_string s).

Fixpoint eqb (a b : jsstring) : bool :=
  match a, b with
  | [], [] => true
  | x :: a', y :: b' => (x =? y) && eqb a' b'
  | _, _ => false
  end.

(** [s.length] *)
Definition length (s : jsstring) : nat := List.length s.

(** [s.startsWith(p)] *)
Definition startsWith (s p : jsstring) : bool :=
  eqb (firstn (List.length p) s) p.

(** [s.slice(n)] for [0 <= n]: the code units from index [n] on, empty when
    [n] is past the end. *)
Definition slice (s : jsstring) (n : nat) : jsstring := skipn n s.

Definition newline : N := 10.

(** [s.split('\n')]: the fragments between newlines; never empty (the
    empty string splits into one empty fragment). *)
Fixpoint split_newline (s : jsstring) : list jsstring :=
  match s with
  | [] => [[]]
  | c :: s' =>
      if c =? newline then [] :: split_newline s'
      else match split_newline s' with
           | l :: ls => (c :: l) :: ls
           | [] => [[c]]
           end
  end.

(** [lines.pop()]: the last element, removed from the array; [undefined]
    on an empty array. *)
Definition pop (lines : list jsstring) : option jsstring * list jsstring :=
  match lines with
  | [] => (None, [])
  | _ :: _ => (Some (last lines []), removelast lines)
  end.

(** [v || ''] for [v : string | undefined]. *)
Definition or_empty (v : option jsstring) : jsstring :=
  match v with
  | Some ((_ :: _) as s) => s
  | _ => []
  end.

(** Truthiness of a [string | undefined]: [undefined] and [''] are falsy. *)
Definition truthy (v : option jsstring) : bool :=
  match v with
  | Some (_ :: _) => true
  | _ => false
  end.

(** [a || b] for [a, b : string | undefined]. *)
Definition or_else (a b : option jsstring) : option jsstring :=
  if truthy a then a else b.

End JsString.
Import JsString.

(* ------------------------------------------------------------------------ *)
(** ** [TextDecoder] in streaming mode

    [new TextDecoder()] is the UTF-8 decoder of the Encoding standard;
    [decode(value, { stream: true })] feeds the bytes of [value] to it and
    keeps the decoder's state for the next call, never flushing.  Malformed
    input produces U+FFFD, a leading byte order mark is dropped. *)

Module TextDecoder.

Record state := {
  code_point : N;
  bytes_seen : N;
  bytes_needed : N;
  lower : N;
  upper : N;
  bom_seen : bool }.

(** The decoder the source creates. *)
Definition init : state :=
  {| code_point := 0; bytes_seen := 0; bytes_needed := 0;
     lower := 128; upper := 191; bom_seen := false |}.

Definition reset (st : state) : state :=
  {| code_point := 0; bytes_seen := 0; bytes_needed := 0;
     lower := 128; upper := 191; bom_seen := bom_seen st |}.

Definition replacement : N := 65533.

(** A byte read when no sequence is open. *)
Definition lead (st : state) (b : N) : state * list N :=
  if b <=? 127 then (st, [b])
  else if (194 <=? b) && (b <=? 223) then
    ({| code_point := N.land b 31; bytes_seen := 0; bytes_needed := 1;
        lower := 128; upper := 191; bom_seen := bom_seen st |}, [])
  else if (224 <=? b) && (b <=? 239) then
    ({| code_point := N.land b 15; bytes_seen := 0; bytes_needed := 2;
        lower := if b =? 224 then 160 else 128;
        upper := if b =? 237 then 159 else 191;
        bom_seen := bom_seen st |}, [])
  else if (240 <=? b) && (b <=? 244) then
    ({| code_point := N.land b 7; bytes_seen := 0; bytes_needed := 3;
        lower := if b =? 240 then 144 else 128;
        upper := if b =? 244 then 143 else 191;
        bom_seen := bom_seen st |}, [])
  else (st, [replacement]).

(** One byte through the decoder: the next state and the code points
    produced. *)
Definition handle (st : state) (b : N) : state * list N :=
  if bytes_needed st =? 0 then lead st b
  else if (b <? lower st) || (upper st <? b) then
    let (st', out) := lead (reset st) b in (st', replacement :: out)
  else
    let cp := N.lor (N.shiftl (code_point st) 6) (N.land b 63) in
    if bytes_seen st + 1 =? bytes_needed st then (reset st, [cp])
    else ({| code_point := cp; bytes_seen := bytes_seen st + 1;
             bytes_needed := bytes_needed st;
             lower := 128; upper := 191; bom_seen := bom_seen st |}, []).

(** UTF-16 code units of a code point. *)
Definition utf16 (cp : N) : jsstring :=
  if cp <? 65536 then [cp]
  else [55296 + N.shiftr (cp - 65536) 10; 56320 + N.land (cp - 65536) 1023].

(** Serialising the decoded code points: the first one is dropped when it
    is the byte order mark. *)
Fixpoint serialize (bom : bool) (cps : list N) : bool * jsstring :=
  match cps with
  | [] => (bom, [])
  | cp :: rest =>
      let (bom', out) := serialize true rest in
      if negb bom && (cp =? 65279) then (bom', out)
      else (bom', utf16 cp ++ out)
  end.

Definition with_bom (st : state) (bom : bool) : state :=
  {| code_point := code_point st; bytes_seen := bytes_seen st;
     bytes_needed := bytes_needed st; lower := lower st; upper := upper st;
     bom_seen := bom |}.

(** One byte: decoder step, then serialisation of what it produced. *)
Definition step (st : state) (b : byte) : state * jsstring :=
  let (st', cps) := handle st (Byte.to_N b) in
  let (bom, out) := serialize (bom_seen st') cps in
  (with_bom st' bom, out).

(** [decoder.decode(value, { stream: true })] *)
Fixpoint decode (st : state) (value : list byte) : state * jsstring :=
  match value with
  | [] => (st, [])
  | b :: rest =>
      let (st1, out1) := step st b in
      let (st2, out2) := decode st1 rest in
      (st2, out1 ++ out2)
  end.

End TextDecoder.

(* ------------------------------------------------------------------------ *)
(** ** Types (interfaces [Task] and [JsonRpcResponse]) *)

Inductive Role := user | agent.

Definition Role_eqb (a b : Role) : bool :=
  match a, b with
  | user, user | agent, agent => true
  | _, _ => false
  end.

Inductive TaskStatus :=
  submitted | working | input_required | completed | failed | canceled.

(** [{ type: 'text'; text: string }] *)
Record Part := { text : jsstring }.

Record Message := { role : Role; parts : list Part }.

Record Artifact := { name : jsstring; artifact_parts : list Part }.

Record Task := {
  task_id : jsstring;
  contextId : jsstring;
  task_status : TaskStatus;
  messages : list Message;
  artifacts : list Artifact }.

Record RpcError := { code : Z; message : jsstring }.

(** [result?] and [error?] are optional members; a present member is an
    object, hence truthy. *)
Record JsonRpcResponse := {
  result : option Task;
  error : option RpcError;
  rpc_id : Z }.

(** The fields of an [A2AClient] object. *)
Record Session := {
  baseUrl : jsstring;
  currentContextId : option jsstring;
  requestId : N }.

Definition set_context (s : Session) (c : option jsstring) : Session :=
  {| baseUrl := baseUrl s; currentContextId := c; requestId := requestId s |}.

Definition next_request (s : Session) : Session :=
  {| baseUrl := baseUrl s; currentContextId := currentContextId s;
     requestId := requestId s + 1 |}.

(** The [message/send] envelope: the parts of [payload] that vary.  The
    [contextId] member of [configuration] is [None] when the key is absent
    or [undefined] (JSON.stringify drops both). *)
Record Payload := {
  message_text : jsstring;
  configuration_contextId : option jsstring;
  configuration_streaming : bool;
  payload_id : N }.

(** [options?: { contextId?: string; streaming?: boolean }] *)
Record SendOptions := {
  opt_contextId : option jsstring;
  opt_streaming : option bool }.

(** [options?.contextId] *)
Definition options_contextId (options : option SendOptions) : option jsstring :=
  match options with
  | Some o => opt_contextId o
  | None => None
  end.

(** [options?.streaming], as a condition and under [|| false]. *)
Definition options_streaming (options : option SendOptions) : bool :=
  match options with
  | Some {| opt_streaming := Some b |} => b
  | _ => false
  end.

(** A promise that settles.  A rejection comes from the runtime (a failed
    connection, a body that is not JSON); it carries the name of the runtime's
    error, for instance [TypeError] or [SyntaxError]. *)
Inductive Settled (A : Type) :=
| Resolved (a : A)
| Rejected (name_ : jsstring).

Arguments Resolved {A}.
Arguments Rejected {A}.

(** How the reads on a body end after its chunks: [{ done: true }], a
    rejected read, or a read that never settles (the connection stays open
    and silent). *)
Inductive StreamEnd :=
| EndOfData
| ReadFails (name_ : jsstring)
| NeverCloses.

(** [response.body.getReader()]: the values successive [read()] calls
    resolve to, and how the reads end. *)
Record ReadableStream := {
  chunks : list (list byte);
  ending : StreamEnd }.

Section Documents.

(** A parsed JSON document ([any] / [unknown] in the source). *)
Variable Json : Type.

(** What a call throws: [new Error(msg)] and [new PaymentRequiredError(..)]
    of the client itself, or an error of the runtime passing through. *)
Inductive JsError :=
| Error (msg : jsstring)
| PaymentRequiredError (paymentInfo : Json)
| RuntimeError (name_ : jsstring).

(** The [Response] of [fetch], as far as the client looks at it. *)
Record Response := {
  status : N;
  json : Settled Json;                (* [await response.json()] *)
  body : option ReadableStream }.     (* [response.body] *)

(** How a call ends: it returns, it throws, or it waits for ever on a
    read. *)
Inductive Outcome (A : Type) :=
| Returned (a : A)
| Thrown (e : JsError)
| Pending.

End Documents.

Arguments Error {Json}.
Arguments PaymentRequiredError {Json}.
Arguments RuntimeError {Json}.
Arguments status {Json}.
Arguments json {Json}.
Arguments body {Json}.
Arguments Returned {Json A}.
Arguments Thrown {Json A}.
Arguments Pending {Json A}.

(** What the client takes from its runtime and from the network. *)
Class Platform := {
  Json : Type;
  (** the unchecked annotation [: JsonRpcResponse] on a parsed document *)
  as_JsonRpcResponse : Json -> JsonRpcResponse;
  (** [JSON.parse]; [None] when it throws *)
  JSON_parse : jsstring -> option Json;
  (** [fetch(url, { method: 'POST', ..., body: JSON.stringify(payload) })] *)
  fetch : jsstring -> Payload -> Settled (Response Json) }.

(* ------------------------------------------------------------------------ *)
(** ** The client *)

Section Client.

Context {P : Platform}.

(** A finished (or stuck) call of [send], [handleStreaming] or [continue]:
    how it ended, the object's fields afterwards, the number of
    [reader.read()] calls it issued and what it wrote to standard output. *)
Record Call := {
  outcome : Outcome Json Task;
  session : Session;
  reads : nat;
  stdout : list jsstring }.

(** A call that throws before any read. *)
Definition throws (s : Session) (e : JsError Json) : Call :=
  {| outcome := Thrown e; session := s; reads := 0; stdout := [] |}.

(** One [yield] of [stream]: the value handed to the consumer and the
    object's fields while the generator is suspended there. *)
Record Yield := {
  value : jsstring;
  suspended : Session }.

(** A run of the generator [stream] driven to its end. *)
Record Generated := {
  yields : list Yield;
  completion : Outcome Json unit;
  final : Session;
  stream_reads : nat }.

(** [task.messages.find(m => m.role === 'agent')] *)
Definition find_agent (t : Task) : option Message :=
  find (fun m => Role_eqb (role m) agent) (messages t).

(** *** The read loop

    [handleStreaming] (l.184-211) and [stream] (l.257-288) run the same
    [while (true)] loop around different bodies of
    [for (const line of lines)]; [on_line] is that body, [St] the variables
    it updates. *)
Section ReadLoop.

Context {St : Type} (on_line : St -> jsstring -> St).

Record LoopState := {
  decoder : TextDecoder.state;
  buffer : jsstring;
  vars : St }.

(** One iteration after a read that resolved with [done] false. *)
Definition on_chunk (ls : LoopState) (chunk : list byte) : LoopState :=
  let (d, decoded) := TextDecoder.decode (decoder ls) chunk in
  let buffer1 := buffer ls ++ decoded in
  let (popped, lines) := pop (split_newline buffer1) in
  {| decoder := d;
     buffer := or_empty popped;
     vars := fold_left on_line lines (vars ls) |}.

(** The loop over the values the reader hands out; the read after the last
    of them is the one that ends the stream.  [n] counts the reads issued. *)
Fixpoint read_loop (values : list (list byte)) (ls : LoopState) (n : nat)
  : LoopState * nat :=
  match values with
  | [] => (ls, S n)
  | chunk :: rest => read_loop rest (on_chunk ls chunk) (S n)
  end.

Definition loop_start (v : St) : LoopState :=
  {| decoder := TextDecoder.init; buffer := []; vars := v |}.

End ReadLoop.

(** *** [handleStreaming] *)

(** Body of the [for] loop of [handleStreaming]; the variables are
    [lastTask] and the text written to standard output. *)
Definition handle_line (st : option Task * list jsstring) (line : jsstring)
  : option Task * list jsstring :=
  let (lastTask, out) := st in
  if startsWith line (js "data: ") then
    let data := slice line 6 in
    if eqb data (js "[DONE]") then st
    else
      match JSON_parse data with
      | None => st                                (* caught *)
      | Some doc =>
          let parsed := as_JsonRpcResponse doc in
          match result parsed with
          | Some r =>
              match find_agent r with
              | Some agentMsg =>
                  match parts agentMsg with
                  | p :: _ =>
                      (Some r, out ++ [js (String "013" "Agent: ") ++ text p])
                  | [] => (Some r, out)           (* TypeError, caught *)
                  end
              | None => (Some r, out)
              end
          | None => st
          end
      end
  else st.

(** [`${this.baseUrl}/a2a`] *)
Definition post_url (s : Session) : jsstring := baseUrl s ++ js "/a2a".

Definition handleStreaming (s : Session) (payload : Payload) : Call :=
  match fetch (post_url s) payload with
  | Rejected e => throws s (RuntimeError e)
  | Resolved response =>
      if status response =? 402 then
        match json response with
        | Resolved paymentInfo => throws s (PaymentRequiredError paymentInfo)
        | Rejected e => throws s (RuntimeError e)
        end
      else
        match body response with
        | None => throws s (Error (js "No response body"))
        | Some reader =>
            let (ls, n) :=
              read_loop handle_line (chunks reader)
                        (loop_start (None, [js "Agent: "])) 0 in
            let (lastTask, out) := vars ls in
            match ending reader with
            | ReadFails e =>
                {| outcome := Thrown (RuntimeError e); session := s;
                   reads := n; stdout := out |}
            | NeverCloses =>
                {| outcome := Pending; session := s; reads := n;
                   stdout := out |}
            | EndOfData =>
                let out' := out ++ [[newline; newline]] in
                match lastTask with
                | None =>
                    {| outcome := Thrown (Error (js "No task received"));
                       session := s; reads := n; stdout := out' |}
                | Some t =>
                    {| outcome := Returned t;
                       session := set_context s (Some (contextId t));
                       reads := n; stdout := out' |}
                end
            end
        end
  end.

(** *** [send] *)

(** [const payload = { ... }] of [send]; [id] is [++this.requestId]. *)
Definition send_payload (s : Session) (text_ : jsstring)
           (options : option SendOptions) : Payload :=
  let contextId_ := or_else (options_contextId options) (currentContextId s) in
  {| message_text := text_;
     configuration_contextId := if truthy contextId_ then contextId_ else None;
     configuration_streaming := options_streaming options;
     payload_id := requestId s + 1 |}.

Definition send (s : Session) (text_ : jsstring)
           (options : option SendOptions) : Call :=
  let payload := send_payload s text_ options in
  let s := next_request s in
  if options_streaming options then handleStreaming s payload
  else
    match fetch (post_url s) payload with
    | Rejected e => throws s (RuntimeError e)
    | Resolved response =>
        if status response =? 402 then
          match json response with
          | Resolved paymentInfo => throws s (PaymentRequiredError paymentInfo)
          | Rejected e => throws s (RuntimeError e)
          end
        else
          match json response with
          | Rejected e => throws s (RuntimeError e)
          | Resolved doc =>
              let result_ := as_JsonRpcResponse doc in
              match error result_ with
              | Some err =>
                  throws s (Error (js "RPC Error: " ++ message err))
              | None =>
                  match result result_ with
                  | Some task =>
                      {| outcome := Returned task;
                         session := set_context s (Some (contextId task));
                         reads := 0; stdout := [] |}
                  | None =>
                      (* [result.result!] is [undefined]: reading
                         [task.contextId] throws *)
                      throws s (RuntimeError (js "TypeError"))
                  end
              end
          end
    end.

(** *** [stream] *)

(** [const payload = { ... }] of [stream]. *)
Definition stream_payload (s : Session) (text_ : jsstring) : Payload :=
  {| message_text := text_;
     configuration_contextId := currentContextId s;
     configuration_streaming := true;
     payload_id := requestId s + 1 |}.

(** The variables the [for] loop of [stream] updates: the object's fields
    ([this.currentContextId]), [lastText], and the values yielded so far. *)
Record StreamVars := {
  this : Session;
  lastText : jsstring;
  yielded : list Yield }.

Definition stream_line (st : StreamVars) (line : jsstring) : StreamVars :=
  if startsWith line (js "data: ") then
    let data := slice line 6 in
    if eqb data (js "[DONE]") then st
    else
      match JSON_parse data with
      | None => st                                (* caught *)
      | Some doc =>
          let parsed := as_JsonRpcResponse doc in
          match result parsed with
          | Some r =>
              let this1 := set_context (this st) (Some (contextId r)) in
              let unchanged :=
                {| this := this1; lastText := lastText st;
                   yielded := yielded st |} in
              match find_agent r with
              | Some agentMsg =>
                  match parts agentMsg with
                  | p :: _ =>
                      let newText := text p in
                      if Nat.ltb (length (lastText st)) (length newText) then
                        {| this := this1;
                           lastText := newText;
                           yielded :=
                             yielded st ++
                             [{| value := slice newText (length (lastText st));
                                 suspended := this1 |}] |}
                      else unchanged
                  | [] => unchanged               (* TypeError, caught *)
                  end
              | None => unchanged
              end
          | None => st
          end
      end
  else st.

Definition stream_start (s : Session) : StreamVars :=
  {| this := s; lastText := []; yielded := [] |}.

Definition stream (s : Session) (text_ : jsstring) : Generated :=
  let payload := stream_payload s text_ in
  let s := next_request s in
  let fails e :=
    {| yields := []; completion := Thrown e; final := s; stream_reads := 0 |} in
  match fetch (post_url s) payload with
  | Rejected e => fails (RuntimeError e)
  | Resolved response =>
      if status response =? 402 then
        match json response with
        | Resolved paymentInfo => fails (PaymentRequiredError paymentInfo)
        | Rejected e => fails (RuntimeError e)
        end
      else
        match body response with
        | None => fails (Error (js "No response body"))
        | Some reader =>
            let (ls, n) :=
              read_loop stream_line (chunks reader)
                        (loop_start (stream_start s)) 0 in
            {| yields := yielded (vars ls);
               completion :=
                 match ending reader with
                 | EndOfData => Returned tt
                 | ReadFails e => Thrown (RuntimeError e)
                 | NeverCloses => Pending
                 end;
               final := this (vars ls);
               stream_reads := n |}
        end
  end.

(** *** [continue], [newConversation], [getContextId] *)

Definition continue (s : Session) (text_ : jsstring) (streaming : bool)
  : Call :=
  if negb (truthy (currentContextId s)) then
    throws s (Error (js "No active conversation. Call send() first."))
  else
    send s text_ (Some {| opt_contextId := currentContextId s;
                          opt_streaming := Some streaming |}).

Definition newConversation (s : Session) : Session := set_context s None.

Definition getContextId (s : Session) : option jsstring := currentContextId s.

(** *** Views of the loop bodies, used to state the properties *)

(** What both loop bodies compute from a line before they use it: the
    [parsed.result] of a [data: ] line that is not [[DONE]] and parses. *)
Definition decode_frame (line : jsstring) : option Task :=
  if startsWith line (js "data: ") then
    let data := slice line 6 in
    if eqb data (js "[DONE]") then None
    else
      match JSON_parse data with
      | None => None
      | Some doc => result (as_JsonRpcResponse doc)
      end
  else None.

(** [agentMsg.parts[0].text] of a Task, when it has an agent message with a
    first part. *)
Definition agent_text (r : Task) : option jsstring :=
  match find_agent r with
  | Some agentMsg =>
      match parts agentMsg with
      | p :: _ => Some (text p)
      | [] => None
      end
  | None => None
  end.

Fixpoint agent_texts (frames : list Task) : list jsstring :=
  match frames with
  | [] => []
  | r :: rest =>
      match agent_text r with
      | Some t => t :: agent_texts rest
      | None => agent_texts rest
      end
  end.

(** The lines the read loop hands to its body, in order. *)
Definition emitted_lines (values : list (list byte)) : list jsstring :=
  vars (fst (read_loop (fun acc line => acc ++ [line]) values
                       (loop_start []) 0)).

(** The payloads of the [data: ] lines among them. *)
Definition data_lines (values : list (list byte)) : list jsstring :=
  vars (fst (read_loop
               (fun acc line =>
                  if startsWith line (js "data: ") then acc ++ [slice line 6]
                  else acc)
               values (loop_start []) 0)).

(** The Tasks decoded from them. *)
Definition decoded_tasks (values : list (list byte)) : list Task :=
  vars (fst (read_loop
               (fun acc line =>
                  match decode_frame line with
                  | Some r => acc ++ [r]
                  | None => acc
                  end)
               values (loop_start []) 0)).

(** The effect of one decoded Task on the variables of [stream]. *)
Definition stream_task (st : StreamVars) (r : Task) : StreamVars :=
  let this1 := set_context (this st) (Some (contextId r)) in
  match agent_text r with
  | Some newText =>
      if Nat.ltb (length (lastText st)) (length newText) then
        {| this := this1; lastText := newText;
           yielded := yielded st ++
                      [{| value := slice newText (length (lastText st));
                          suspended := this1 |}] |}
      else {| this := this1; lastText := lastText st; yielded := yielded st |}
  | None => {| this := this1; lastText := lastText st; yielded := yielded st |}
  end.

End Client.

(** [t] extends [prev]: [prev] is a prefix of [t]. *)
Definition extends (t prev : jsstring) : bool := startsWith t prev.

(** Each text extends the one before it, the first one extends [prev]. *)
Fixpoint extension_chain (prev : jsstring) (texts : list jsstring) : bool :=
  match texts with
  | [] => true
  | t :: rest => extends t prev && extension_chain t rest
  end.

(** Three ways to cut a body into chunks. *)
Definition one_byte_chunks (bytes : list byte) : list (list byte) :=
  map (fun b => [b]) bytes.

Definition whole_body (bytes : list byte) : list (list byte) := [bytes].

Fixpoint line_chunks (bytes : list byte) : list (list byte) :=
  match bytes with
  | [] => []
  | b :: rest =>
      if Byte.eqb b x0a then [b] :: line_chunks rest
      else match line_chunks rest with
           | c :: cs => (b :: c) :: cs
           | [] => [[b]]
           end
  end.

(** The text of a whole body, decoded in one piece, and its lines that end
    in a newline. *)
Definition body_text (values : list (list byte)) : jsstring :=
  snd (TextDecoder.decode TextDecoder.init (List.concat values)).

Definition complete_lines (t : jsstring) : list jsstring :=
  removelast (split_newline t).

(** The [Some]s of a list, in order. *)
Fixpoint somes {A B : Type} (f : A -> option B) (l : list A) : list B :=
  match l with
  | [] => []
  | x :: rest =>
      match f x with
      | Some y => y :: somes f rest
      | None => somes f rest
      end
  end.

(* ------------------------------------------------------------------------ *)
(** ** A test server

    A platform to run the client on: documents are JSON-RPC responses or a
    payment challenge, [JSON.parse] recognises the texts of the documents
    this server sends, and [fetch] answers every request alike. *)

Module Fixture.

Inductive Doc :=
| Rpc (r : JsonRpcResponse)
| Challenge (amount : jsstring).          (* [{ amount: ... }] *)

(** Reading [.result] and [.error] off a challenge gives [undefined]. *)
Definition as_rpc (d : Doc) : JsonRpcResponse :=
  match d with
  | Rpc r => r
  | Challenge _ => {| result := None; error := None; rpc_id := 0 |}
  end.

Definition quoted (s : jsstring) : jsstring := [34] ++ s ++ [34].

Definition member (key : string) (v : jsstring) : jsstring :=
  quoted (js key) ++ js ":" ++ v.

Fixpoint joined (items : list jsstring) : jsstring :=
  match items with
  | [] => []
  | [x] => x
  | x :: rest => x ++ js "," ++ joined rest
  end.

Definition array (items : list jsstring) : jsstring :=
  js "[" ++ joined items ++ js "]".

Definition object (members : list jsstring) : jsstring :=
  js "{" ++ joined members ++ js "}".

Definition part_text (p : Part) : jsstring :=
  object [member "type" (quoted (js "text")); member "text" (quoted (text p))].

Definition message_text_of (m : Message) : jsstring :=
  object [member "role"
            (quoted (js match role m with user => "user" | agent => "agent" end));
          member "parts" (array (map part_text (parts m)))].

Definition task_text (t : Task) : jsstring :=
  object [member "id" (quoted (task_id t));
          member "contextId" (quoted (contextId t));
          member "messages" (array (map message_text_of (messages t)));
          member "artifacts" (array [])].

(** The text of a document on the wire. *)
Definition wire (d : Doc) : jsstring :=
  match d with
  | Rpc r =>
      object (member "jsonrpc" (quoted (js "2.0")) ::
              match result r with
              | Some t => [member "result" (task_text t)]
              | None => []
              end)
  | Challenge amount => object [member "amount" (quoted amount)]
  end.

Definition says (ctx : string) (reply : string) : Task :=
  {| task_id := js "task-1"; contextId := js ctx; task_status := working;
     messages := [ {| role := user; parts := [ {| text := js "Say hello" |} ] |};
                   {| role := agent; parts := [ {| text := js reply |} ] |} ];
     artifacts := [] |}.

Definition frame (t : Task) : Doc :=
  Rpc {| result := Some t; error := None; rpc_id := 1 |}.

Definition hel : Task := says "ctx-1" "Hel".
Definition hello : Task := says "ctx-1" "Hello".
Definition goodbye : Task := says "ctx-2" "Goodbye!".
Definition challenge : Doc := Challenge (js "0.01").

Definition known : list Doc := [frame hel; frame hello; frame goodbye; challenge].

Definition parse (s : jsstring) : option Doc :=
  find (fun d => eqb (wire d) s) known.

(** The server: every request gets the answer [r]. *)
Definition server (r : Settled (Response Doc)) : Platform :=
  {| Json := Doc; as_JsonRpcResponse := as_rpc; JSON_parse := parse;
     fetch := fun _ _ => r |}.

(** An event stream: one [data: ] line and a blank line per payload. *)
Definition sse (payloads : list jsstring) : jsstring :=
  List.concat (map (fun p => js "data: " ++ p ++ [newline; newline]) payloads).

Definition bytes_of (s : jsstring) : list byte :=
  map (fun c => match Byte.of_N c with Some b => b | None => x3f end) s.

Definition streaming_reply (status_ : N) (values : list (list byte))
           (e : StreamEnd) : Response Doc :=
  {| status := status_; json := Rejected (js "SyntaxError");
     body := Some {| chunks := values; ending := e |} |}.

Definition unary_reply (status_ : N) (d : Doc) : Response Doc :=
  {| status := status_; json := Resolved d;
     body := Some {| chunks := [bytes_of (wire d)]; ending := EndOfData |} |}.

Definition fresh : Session :=
  {| baseUrl := js "http://localhost:3000"; currentContextId := None;
     requestId := 0 |}.

Definition say_hello : jsstring := js "Say hello".

Definition streaming_on : option SendOptions :=
  Some {| opt_contextId := None; opt_streaming := Some true |}.

Definition done_line : jsstring := js "[DONE]".

(** Two frames with growing text, then the sentinel. *)
Definition growing_body : list byte :=
  bytes_of (sse [wire (frame hel); wire (frame hello); done_line]).

Definition growing_reply : Response Doc :=
  streaming_reply 200 (one_byte_chunks growing_body) EndOfData.

(** A frame whose text does not extend the text before it. *)
Definition restart_reply : Response Doc :=
  streaming_reply 200
    [bytes_of (sse [wire (frame hello); wire (frame goodbye)])] EndOfData.

(** The sentinel in the first chunk, a frame in the second. *)
Definition done_first_chunk : list byte := bytes_of (sse [done_line]).

Definition done_first_reply : Response Doc :=
  streaming_reply 200
    [done_first_chunk; bytes_of (sse [wire (frame hello)])] EndOfData.

(** A frame and the sentinel, on a connection the server keeps open. *)
Definition kept_open_reply : Response Doc :=
  streaming_reply 200
    [bytes_of (sse [wire (frame hello); done_line])] NeverCloses.

(** Nothing but a malformed line and the sentinel. *)
Definition no_task_reply : Response Doc :=
  streaming_reply 200 [bytes_of (sse [js "{oops"; done_line])] EndOfData.

(** A frame, then the connection breaks. *)
Definition broken_reply : Response Doc :=
  streaming_reply 200 [bytes_of (sse [wire (frame hel)])]
                  (ReadFails (js "TypeError")).

Definition payment_reply : Response Doc := unary_reply 402 challenge.

Definition hello_reply : Response Doc := unary_reply 200 (frame hello).

(** A server error whose body is a JSON-RPC result all the same. *)
Definition error_status_reply : Response Doc := unary_reply 500 (frame hello).

(** A Task whose context id is the empty string. *)
Definition empty_context_reply : Response Doc :=
  unary_reply 200 (frame (says EmptyString "Hi")).

(** The session after a first unary [send] answered with [r]. *)
Definition after_send (r : Response Doc) : Session :=
  session (send (P := server (Resolved r)) fresh say_hello None).

End Fixture.

(* ------------------------------------------------------------------------ *)
(** ** Discovery ([discover], l.97-103) *)

(** The members of a skill of [AgentCard]. *)
Record Skill := {
  skill_id : jsstring;
  skill_name : jsstring;
  skill_description : jsstring;
  tags : list jsstring;
  examples : list jsstring }.

(** [interface AgentCard]; [authentication] is the list of schemes when the
    member is there. *)
Record AgentCard := {
  card_name : jsstring;
  description : jsstring;
  url : jsstring;
  version : jsstring;
  capabilities_streaming : bool;
  capabilities_pushNotifications : bool;
  skills : list Skill;
  authentication : option (list jsstring) }.

(** What [discover] takes from the runtime and the network, beside the
    platform of the other methods. *)
Class Discovery {P : Platform} := {
  (** [fetch(url)], a GET *)
  fetch_get : jsstring -> Settled (Response Json);
  (** the return type [Promise<AgentCard>] on a parsed document *)
  as_AgentCard : Json -> AgentCard }.

(** [response.ok]: the status is in the range 200-299. *)
Definition ok {Json : Type} (response : Response Json) : bool :=
  (200 <=? status response) && (status response <=? 299).

(** A status in a template literal: its decimal digits. *)
Definition number_text (n : N) : jsstring :=
  js (NilZero.string_of_uint (N.to_uint n)).

Section Discover.

Context {P : Platform} {D : Discovery}.

Definition card_url (s : Session) : jsstring :=
  baseUrl s ++ js "/.well-known/agent-card.json".

(** [discover] reads [this.baseUrl] and writes no field. *)
Definition discover (s : Session) : Outcome Json AgentCard :=
  match fetch_get (card_url s) with
  | Rejected e => Thrown (RuntimeError e)
  | Resolved response =>
      if negb (ok response) then
        Thrown (Error (js "Failed to fetch agent card: " ++
                       number_text (status response)))
      else
        match json response with
        | Resolved doc => Returned (as_AgentCard doc)
        | Rejected e => Thrown (RuntimeError e)
        end
  end.

End Discover.

(** The longest of some lengths, 0 for none. *)
Definition longest (texts : list jsstring) : nat :=
  list_max (map length texts).

(** Lines put back together: each followed by a newline. *)
Definition terminated (lines : list jsstring) : jsstring :=
  List.concat (map (fun l => l ++ [newline]) lines).

(** Occurrences of the newline in a text. *)
Definition newlines (t : jsstring) : nat :=
  List.length (filter (fun c => c =? newline) t).

(* ------------------------------------------------------------------------ *)
(** ** More of the test server *)

Module Fixture2.

Import Fixture.

(** A JSON-RPC response that carries an error and no result. *)
Definition internal_error : RpcError :=
  {| code := (-32603)%Z; message := js "Internal error" |}.

Definition error_doc : Doc :=
  Rpc {| result := None; error := Some internal_error; rpc_id := 1 |}.

Definition error_wire : jsstring :=
  object [member "jsonrpc" (quoted (js "2.0"));
          member "error"
                 (object [member "code" (js "-32603");
                          member "message" (quoted (message internal_error))])].

(** [JSON.parse] that also recognises the error document. *)
Definition parse_with_error (s : jsstring) : option Doc :=
  if eqb s error_wire then Some error_doc else parse s.

Definition error_server (r : Settled (Response Doc)) : Platform :=
  {| Json := Doc; as_JsonRpcResponse := as_rpc;
     JSON_parse := parse_with_error; fetch := fun _ _ => r |}.

(** The error document as a unary answer and as the only frame of a
    stream. *)
Definition error_unary_reply : Response Doc := unary_reply 200 error_doc.

Definition error_stream_reply : Response Doc :=
  streaming_reply 200 [bytes_of (sse [error_wire; done_line])] EndOfData.

(** Nothing but the sentinel, on a connection the server keeps open, and
    on one that breaks. *)
Definition done_kept_open_reply : Response Doc :=
  streaming_reply 200 [bytes_of (sse [done_line])] NeverCloses.

Definition done_broken_reply : Response Doc :=
  streaming_reply 200 [bytes_of (sse [done_line])]
                  (ReadFails (js "TypeError")).

(** A session with a stored context id, and one that stores the empty
    string. *)
Definition in_conversation : Session :=
  {| baseUrl := js "http://localhost:3000";
     currentContextId := Some (js "ctx-1"); requestId := 4 |}.

Definition in_empty_context : Session :=
  {| baseUrl := js "http://localhost:3000";
     currentContextId := Some []; requestId := 4 |}.

(** A body whose last line has no newline after it. *)
Definition cut_short_body : list byte :=
  bytes_of (sse [wire (frame hel)] ++ js "data: " ++ wire (frame hello)).

(** The card of the test agent, and a discovery platform that answers every
    GET with [r]. *)
Definition test_card : AgentCard :=
  {| card_name := js "QingQiuAgent"; description := js "test agent";
     url := js "http://localhost:3000"; version := js "1.0.0";
     capabilities_streaming := true; capabilities_pushNotifications := false;
     skills := []; authentication := None |}.

Definition discovery (r : Settled (Response Doc))
  : @Discovery (server (Resolved hello_reply)) :=
  @Build_Discovery (server (Resolved hello_reply))
                   (fun _ => r) (fun _ => test_card).

End Fixture2.

(* ------------------------------------------------------------------------ *)
(** ** Strings and the decoder *)

Lemma jsstring_eqb_eq (a b : jsstring) : eqb a b = true <-> a = b.
Proof.
  revert b; induction a as [|x a IH]; intros [|y b]; simpl;
    try (split; (reflexivity || discriminate)).
  rewrite andb_true_iff, N.eqb_eq, IH.
  split; [intros [-> ->]; reflexivity | intros [= -> ->]; auto].
Qed.

Lemma split_newline_nonempty (s : jsstring) : split_newline s <> [].
Proof.
  destruct s as [|c s]; simpl; [discriminate|].
  destruct (c =? newline); [discriminate|].
  destruct (split_newline s); discriminate.
Qed.

(** Splitting a text in two pieces: the lines of the first piece but its
    last fragment, then the lines of that fragment followed by the second
    piece. *)
Lemma split_newline_app (a b : jsstring) :
  split_newline (a ++ b) =
  removelast (split_newline a) ++ split_newline (last (split_newline a) [] ++ b).
Proof.
  induction a as [|c a IH]; [reflexivity|].
  cbn [app split_newline].
  pose proof (split_newline_nonempty a) as Hne.
  rewrite IH.
  destruct (split_newline a) as [|l ls]; [contradiction|].
  destruct (c =? newline) eqn:E; [reflexivity|].
  destruct ls as [|l' ls]; [|reflexivity].
  cbn [removelast last app split_newline].
  rewrite E; reflexivity.
Qed.

(** The fragment held back has no newline in it: it splits into itself. *)
Lemma split_newline_last (s : jsstring) :
  split_newline (last (split_newline s) []) = [last (split_newline s) []].
Proof.
  pose proof (split_newline_app s []) as H.
  rewrite !app_nil_r in H.
  rewrite (app_removelast_last [] (split_newline_nonempty s)) in H at 1.
  apply app_inv_head in H.
  symmetry; exact H.
Qed.

Lemma last_append {A : Type} (l l' : list A) (d : A) :
  l' <> [] -> last (l ++ l') d = last l' d.
Proof.
  intros Hne; induction l as [|x l IH]; [reflexivity|].
  cbn [app last]; rewrite IH.
  destruct (l ++ l') eqn:E; [|reflexivity].
  apply app_eq_nil in E; destruct E; contradiction.
Qed.

Lemma or_empty_Some (s : jsstring) : or_empty (Some s) = s.
Proof. destruct s; reflexivity. Qed.

Lemma pop_split_newline (s : jsstring) :
  pop (split_newline s) =
  (Some (last (split_newline s) []), removelast (split_newline s)).
Proof.
  pose proof (split_newline_nonempty s).
  destruct (split_newline s); [contradiction|reflexivity].
Qed.

(** Decoding is a fold over the bytes: cutting the input changes nothing. *)
Lemma decode_app (st : TextDecoder.state) (a b : list byte) :
  TextDecoder.decode st (a ++ b) =
  let (st1, out1) := TextDecoder.decode st a in
  let (st2, out2) := TextDecoder.decode st1 b in
  (st2, out1 ++ out2).
Proof.
  revert st; induction a as [|x a IH]; intros st; cbn [app TextDecoder.decode].
  - destruct (TextDecoder.decode st b); reflexivity.
  - destruct (TextDecoder.step st x) as [st1 o1].
    rewrite IH.
    destruct (TextDecoder.decode st1 a) as [st2 o2].
    destruct (TextDecoder.decode st2 b) as [st3 o3].
    rewrite app_assoc; reflexivity.
Qed.

(* ------------------------------------------------------------------------ *)
(** ** The read loop *)

Section ReadLoopFacts.

Context {St : Type} (on_line : St -> jsstring -> St).

(** The loop computes what one pass over the whole body computes: the
    decoder after all bytes, the unterminated tail as buffer, and the body
    folded over the complete lines; it issues one read per chunk and one
    more. *)
Lemma read_loop_whole (values : list (list byte)) (ls : LoopState) (n : nat) :
  split_newline (buffer ls) = [buffer ls] ->
  read_loop on_line values ls n =
  (let (d, decoded) := TextDecoder.decode (decoder ls) (List.concat values) in
   {| decoder := d;
      buffer := last (split_newline (buffer ls ++ decoded)) [];
      vars := fold_left on_line (complete_lines (buffer ls ++ decoded))
                        (vars ls) |},
   (n + List.length values + 1)%nat).
Proof.
  revert ls n; induction values as [|chunk rest IH]; intros ls n Hbuf.
  - cbn [read_loop List.concat TextDecoder.decode List.length].
    unfold complete_lines.
    rewrite app_nil_r, Hbuf; cbn [last removelast fold_left].
    destruct ls; cbn; f_equal; lia.
  - cbn [read_loop List.concat List.length].
    rewrite IH.
    + unfold on_chunk.
      rewrite decode_app.
      destruct (TextDecoder.decode (decoder ls) chunk) as [d1 t1].
      rewrite pop_split_newline.
      cbn [decoder buffer vars].
      destruct (TextDecoder.decode d1 (List.concat rest)) as [d2 t2].
      rewrite or_empty_Some.
      unfold complete_lines.
      rewrite (app_assoc (buffer ls) t1 t2).
      rewrite (split_newline_app (buffer ls ++ t1) t2).
      rewrite removelast_app by apply split_newline_nonempty.
      rewrite last_append by apply split_newline_nonempty.
      rewrite fold_left_app.
      f_equal; lia.
    + unfold on_chunk.
      destruct (TextDecoder.decode (decoder ls) chunk) as [d1 t1].
      rewrite pop_split_newline, or_empty_Some.
      apply split_newline_last.
Qed.

Lemma read_loop_start (values : list (list byte)) (v : St) :
  read_loop on_line values (loop_start v) 0 =
  ({| decoder := fst (TextDecoder.decode TextDecoder.init (List.concat values));
      buffer := last (split_newline (body_text values)) [];
      vars := fold_left on_line (complete_lines (body_text values)) v |},
   S (List.length values)).
Proof.
  rewrite read_loop_whole by reflexivity.
  unfold body_text, loop_start; cbn [decoder buffer vars app].
  destruct (TextDecoder.decode TextDecoder.init (List.concat values)).
  cbn [fst snd]; f_equal; lia.
Qed.

End ReadLoopFacts.

(* ------------------------------------------------------------------------ *)
(** ** The client's loops, line by line and frame by frame *)

Lemma fold_left_somes {A B : Type} (f : A -> option B) (l : list A)
      (acc : list B) :
  fold_left (fun acc x => match f x with Some y => acc ++ [y] | None => acc end)
            l acc
  = acc ++ somes f l.
Proof.
  revert acc; induction l as [|x l IH]; intros acc; cbn [fold_left somes].
  - rewrite app_nil_r; reflexivity.
  - rewrite IH; destruct (f x); [rewrite <- app_assoc|]; reflexivity.
Qed.

Lemma fold_left_snoc {A : Type} (l acc : list A) :
  fold_left (fun acc x => acc ++ [x]) l acc = acc ++ l.
Proof.
  revert acc; induction l as [|x l IH]; intros acc; cbn [fold_left].
  - rewrite app_nil_r; reflexivity.
  - rewrite IH, <- app_assoc; reflexivity.
Qed.

Lemma somes_app {A B : Type} (f : A -> option B) (l1 l2 : list A) :
  somes f (l1 ++ l2) = somes f l1 ++ somes f l2.
Proof.
  induction l1 as [|x l1 IH]; [reflexivity|].
  cbn [app somes]; rewrite IH; destruct (f x); reflexivity.
Qed.

Lemma last_cons {A : Type} (x : A) (l : list A) (d : A) :
  last (x :: l) d = last l x.
Proof.
  revert x d; induction l as [|y l IH]; intros x d; [reflexivity|].
  change (last (x :: y :: l) d) with (last (y :: l) d).
  rewrite (IH y d), (IH y x); reflexivity.
Qed.

Section LoopBodies.

Context {P : Platform}.

Lemma emitted_lines_whole (values : list (list byte)) :
  emitted_lines values = complete_lines (body_text values).
Proof.
  unfold emitted_lines; rewrite read_loop_start; cbn [fst vars].
  apply (fold_left_snoc _ []).
Qed.

Lemma decoded_tasks_whole (values : list (list byte)) :
  decoded_tasks values = somes decode_frame (complete_lines (body_text values)).
Proof.
  unfold decoded_tasks; rewrite read_loop_start; cbn [fst vars].
  rewrite fold_left_somes; reflexivity.
Qed.

(** Both bodies decode a line the same way, then use the Task. *)
Lemma stream_line_frame (st : StreamVars) (line : jsstring) :
  stream_line st line =
  match decode_frame line with
  | Some r => stream_task st r
  | None => st
  end.
Proof.
  unfold stream_line, decode_frame, stream_task, agent_text.
  destruct (startsWith line (js "data: ")); [|reflexivity].
  destruct (eqb (slice line 6) (js "[DONE]")); [reflexivity|].
  destruct (JSON_parse (slice line 6)) as [doc|]; [|reflexivity].
  destruct (result (as_JsonRpcResponse doc)) as [r|]; [|reflexivity].
  destruct (find_agent r) as [m|]; [|reflexivity].
  destruct (parts m); reflexivity.
Qed.

Lemma handle_line_frame (st : option Task * list jsstring) (line : jsstring) :
  fst (handle_line st line) =
  match decode_frame line with
  | Some r => Some r
  | None => fst st
  end.
Proof.
  unfold handle_line, decode_frame; destruct st as [lastTask out].
  destruct (startsWith line (js "data: ")); [|reflexivity].
  destruct (eqb (slice line 6) (js "[DONE]")); [reflexivity|].
  destruct (JSON_parse (slice line 6)) as [doc|]; [|reflexivity].
  destruct (result (as_JsonRpcResponse doc)) as [r|]; [|reflexivity].
  destruct (find_agent r) as [m|]; [|reflexivity].
  destruct (parts m); reflexivity.
Qed.

Lemma fold_stream_line (lines : list jsstring) (st : StreamVars) :
  fold_left stream_line lines st =
  fold_left stream_task (somes decode_frame lines) st.
Proof.
  revert st; induction lines as [|line lines IH]; intros st; [reflexivity|].
  cbn [fold_left somes]; rewrite stream_line_frame.
  destruct (decode_frame line); apply IH.
Qed.

(** [lastTask] after the lines: the last Task decoded, if any. *)
Lemma fold_handle_line (lines : list jsstring)
      (st : option Task * list jsstring) :
  fst (fold_left handle_line lines st) =
  last (map Some (somes decode_frame lines)) (fst st).
Proof.
  revert st; induction lines as [|line lines IH]; intros st; [reflexivity|].
  cbn [fold_left somes]; rewrite IH, handle_line_frame.
  destruct (decode_frame line); [|reflexivity].
  cbn [map]; rewrite last_cons; reflexivity.
Qed.

(** The stored context id after some frames: that of the last one. *)
Lemma stream_task_context (st : StreamVars) (r : Task) :
  currentContextId (this (stream_task st r)) = Some (contextId r).
Proof.
  unfold stream_task; destruct (agent_text r); [|reflexivity].
  destruct (Nat.ltb _ _); reflexivity.
Qed.

Lemma fold_stream_task_context (frames : list Task) (st : StreamVars) :
  currentContextId (this (fold_left stream_task frames st)) =
  last (map (fun r => Some (contextId r)) frames) (currentContextId (this st)).
Proof.
  revert st; induction frames as [|r frames IH]; intros st; [reflexivity|].
  cbn [fold_left map]; rewrite IH, last_cons, stream_task_context.
  reflexivity.
Qed.

(** A run of [stream] that reaches the loop, in terms of the decoded
    frames. *)
Lemma stream_run (s : Session) (text_ : jsstring) (response : Response Json)
      (reader : ReadableStream) :
  fetch (post_url s) (stream_payload s text_) = Resolved response ->
  status response <> 402 ->
  body response = Some reader ->
  stream s text_ =
  let st := fold_left stream_task (decoded_tasks (chunks reader))
                      (stream_start (next_request s)) in
  {| yields := yielded st;
     completion := match ending reader with
                   | EndOfData => Returned tt
                   | ReadFails e => Thrown (RuntimeError e)
                   | NeverCloses => Pending
                   end;
     final := this st;
     stream_reads := S (List.length (chunks reader)) |}.
Proof.
  intros Hfetch Hstatus Hbody.
  unfold stream.
  change (post_url (next_request s)) with (post_url s).
  rewrite Hfetch.
  apply N.eqb_neq in Hstatus; rewrite Hstatus, Hbody.
  rewrite read_loop_start, decoded_tasks_whole, fold_stream_line.
  reflexivity.
Qed.

End LoopBodies.

(* ------------------------------------------------------------------------ *)
(** ** Reassembly across chunks *)

Section Reassembly.

Context {P : Platform}.

(** C2.  However a body is cut into chunks, the read loop hands the same
    lines, in the same order, to its body: two chunk sequences with the same
    bytes give the same emitted lines, the same [data: ] payloads and the
    same decoded Tasks, and leave both loops ([handleStreaming]'s and
    [stream]'s) with the same decoder, buffer and variables. *)
Theorem chunking_does_not_matter (values1 values2 : list (list byte)) :
  List.concat values1 = List.concat values2 ->
  emitted_lines values1 = emitted_lines values2 /\
  data_lines values1 = data_lines values2 /\
  decoded_tasks values1 = decoded_tasks values2 /\
  (forall v, fst (read_loop handle_line values1 (loop_start v) 0) =
             fst (read_loop handle_line values2 (loop_start v) 0)) /\
  (forall v, fst (read_loop stream_line values1 (loop_start v) 0) =
             fst (read_loop stream_line values2 (loop_start v) 0)).
Proof.
  intros Hsame.
  unfold emitted_lines, data_lines, decoded_tasks.
  repeat split; intros; rewrite !read_loop_start; unfold body_text;
    rewrite Hsame; reflexivity.
Qed.

End Reassembly.

Lemma concat_one_byte_chunks (bytes : list byte) :
  List.concat (one_byte_chunks bytes) = bytes.
Proof.
  induction bytes as [|b bytes IH]; [reflexivity|].
  change (List.concat (one_byte_chunks (b :: bytes)))
    with (b :: List.concat (one_byte_chunks bytes)).
  rewrite IH; reflexivity.
Qed.

Lemma concat_whole_body (bytes : list byte) :
  List.concat (whole_body bytes) = bytes.
Proof. apply app_nil_r. Qed.

Lemma concat_line_chunks (bytes : list byte) :
  List.concat (line_chunks bytes) = bytes.
Proof.
  induction bytes as [|b bytes IH]; [reflexivity|].
  cbn [line_chunks]; destruct (Byte.eqb b x0a).
  - cbn [List.concat app]; rewrite IH; reflexivity.
  - destruct (line_chunks bytes) as [|c cs]; cbn [List.concat app] in *.
    + subst; reflexivity.
    + rewrite IH; reflexivity.
Qed.

(** The three cuts of a body named for the stream reader - single bytes,
    lines, the whole body - decode to the same Tasks. *)
Lemma named_chunkings_agree {P : Platform} (bytes : list byte) :
  decoded_tasks (one_byte_chunks bytes) = decoded_tasks (whole_body bytes) /\
  decoded_tasks (line_chunks bytes) = decoded_tasks (whole_body bytes).
Proof.
  rewrite !decoded_tasks_whole; unfold body_text.
  rewrite concat_one_byte_chunks, concat_line_chunks, concat_whole_body.
  split; reflexivity.
Qed.

(* ------------------------------------------------------------------------ *)
(** ** Text increments of [stream] *)

Lemma startsWith_firstn (t prev : jsstring) :
  startsWith t prev = true -> firstn (List.length prev) t = prev.
Proof. unfold startsWith; apply jsstring_eqb_eq. Qed.

Section Increments.

Context {P : Platform}.

Lemma agent_texts_app (a b : list Task) :
  agent_texts (a ++ b) = agent_texts a ++ agent_texts b.
Proof.
  induction a as [|r a IH]; [reflexivity|].
  cbn [app agent_texts]; rewrite IH; destruct (agent_text r); reflexivity.
Qed.

(** While every text extends the one before, the values yielded so far
    concatenate to [lastText], and [lastText] is the latest text. *)
Lemma stream_task_chain (frames : list Task) (st : StreamVars) :
  List.concat (map value (yielded st)) = lastText st ->
  extension_chain (lastText st) (agent_texts frames) = true ->
  let st' := fold_left stream_task frames st in
  List.concat (map value (yielded st')) = lastText st' /\
  lastText st' = last (agent_texts frames) (lastText st).
Proof.
  revert st; induction frames as [|r frames IH]; intros st Hinv Hchain;
    [split; [exact Hinv | reflexivity]|].
  cbn [fold_left agent_texts] in *.
  set (st1 := stream_task st r).
  assert (List.concat (map value (yielded st1)) = lastText st1 /\
          extension_chain (lastText st1) (agent_texts frames) = true /\
          last (agent_texts frames) (lastText st1) =
          last (match agent_text r with
                | Some t => t :: agent_texts frames
                | None => agent_texts frames
                end) (lastText st)) as (H1 & H2 & H3).
  { subst st1; unfold stream_task.
    destruct (agent_text r) as [t|]; [|repeat split; assumption].
    cbn [extension_chain] in Hchain; apply andb_true_iff in Hchain.
    destruct Hchain as [Hext Hchain]; apply startsWith_firstn in Hext.
    rewrite last_cons.
    destruct (Nat.ltb (length (lastText st)) (length t)) eqn:Hlt;
      cbn [yielded lastText].
    - repeat split; [|exact Hchain].
      rewrite map_app, concat_app, Hinv; cbn [map List.concat value].
      rewrite app_nil_r; unfold slice, length.
      rewrite <- Hext at 1; apply firstn_skipn.
    - assert (t = lastText st) as ->.
      { apply Nat.ltb_ge in Hlt; unfold length in Hlt.
        rewrite firstn_all2 in Hext by exact Hlt; exact Hext. }
      repeat split; assumption. }
  destruct (IH st1 H1 H2) as [HA HB].
  split; [exact HA | rewrite HB; exact H3].
Qed.

(** C3.  In a streaming exchange where the agent text of every decoded frame
    extends that of the frame before, the values [stream] yields concatenate
    to the agent text of the last decoded Task that has one; in particular
    to the agent text of the final decoded Task. *)
Theorem stream_increments_concatenate (s : Session) (text_ : jsstring)
        (response : Response Json) (reader : ReadableStream) :
  fetch (post_url s) (stream_payload s text_) = Resolved response ->
  status response <> 402 ->
  body response = Some reader ->
  extension_chain [] (agent_texts (decoded_tasks (chunks reader))) = true ->
  List.concat (map value (yields (stream s text_))) =
    last (agent_texts (decoded_tasks (chunks reader))) [] /\
  (forall before final_task final_text,
      decoded_tasks (chunks reader) = before ++ [final_task] ->
      agent_text final_task = Some final_text ->
      List.concat (map value (yields (stream s text_))) = final_text).
Proof.
  intros Hfetch Hstatus Hbody Hchain.
  rewrite (stream_run s text_ response reader Hfetch Hstatus Hbody).
  cbn [yields].
  destruct (stream_task_chain (decoded_tasks (chunks reader))
                              (stream_start (next_request s))
                              eq_refl Hchain) as [Hcat Hlast].
  cbn zeta in Hcat, Hlast.
  assert (List.concat
            (map value
               (yielded (fold_left stream_task (decoded_tasks (chunks reader))
                                   (stream_start (next_request s))))) =
          last (agent_texts (decoded_tasks (chunks reader))) []) as Hmain.
  { rewrite Hcat, Hlast; reflexivity. }
  split; [exact Hmain|].
  intros before final_task final_text Hframes Htext.
  rewrite Hmain, Hframes, agent_texts_app.
  cbn [agent_texts]; rewrite Htext; apply last_last.
Qed.

End Increments.

(* ------------------------------------------------------------------------ *)
(** ** What [stream] yields for one frame, and the context id it stores *)

Section Frames.

Context {P : Platform}.

(** C4, as amended.  For a decoded frame with an agent text [newText],
    whether or not [newText] extends [lastText] (the longest text seen so
    far): when [newText] is longer than [lastText], [stream] yields the part
    of [newText] past the length of [lastText] and [newText] becomes
    [lastText]; otherwise it yields nothing and keeps [lastText].  No frame
    makes the generator throw: over a body that ends, it completes. *)
Theorem stream_yields_past_last_length (st : StreamVars) (line : jsstring)
        (r : Task) (newText : jsstring) :
  decode_frame line = Some r ->
  agent_text r = Some newText ->
  yielded (stream_line st line) =
    yielded st ++
    (if Nat.ltb (length (lastText st)) (length newText)
     then [{| value := slice newText (length (lastText st));
              suspended := set_context (this st) (Some (contextId r)) |}]
     else []) /\
  lastText (stream_line st line) =
    (if Nat.ltb (length (lastText st)) (length newText)
     then newText else lastText st) /\
  (forall s text_ response reader,
      fetch (post_url s) (stream_payload s text_) = Resolved response ->
      status response <> 402 ->
      body response = Some reader ->
      ending reader = EndOfData ->
      completion (stream s text_) = Returned tt).
Proof.
  intros Hframe Htext.
  rewrite stream_line_frame, Hframe; unfold stream_task; rewrite Htext.
  destruct (Nat.ltb (length (lastText st)) (length newText));
    cbn [yielded lastText]; rewrite ?app_nil_r; repeat split; trivial;
    intros s text_ response reader Hfetch Hstatus Hbody Hend;
    rewrite (stream_run s text_ response reader Hfetch Hstatus Hbody);
    cbn [completion]; rewrite Hend; reflexivity.
Qed.

(** The values yielded only grow. *)
Lemma yielded_grows (frames : list Task) (st : StreamVars) :
  exists more, yielded (fold_left stream_task frames st) = yielded st ++ more.
Proof.
  revert st; induction frames as [|r frames IH]; intros st.
  - exists []; cbn; rewrite app_nil_r; reflexivity.
  - cbn [fold_left]; destruct (IH (stream_task st r)) as [more ->].
    unfold stream_task; destruct (agent_text r) as [t|];
      [destruct (Nat.ltb _ _)|]; cbn [yielded].
    + rewrite <- app_assoc; eexists; reflexivity.
    + eexists; reflexivity.
    + eexists; reflexivity.
Qed.

(** Every value is yielded while the frame just decoded is the one whose
    context id is stored. *)
Lemma yield_has_frame (frames : list Task) (st : StreamVars)
      (ys1 : list Yield) (y : Yield) (ys2 : list Yield) :
  yielded (fold_left stream_task frames st) = yielded st ++ ys1 ++ y :: ys2 ->
  exists before r after,
    frames = before ++ r :: after /\
    currentContextId (suspended y) = Some (contextId r) /\
    yielded (fold_left stream_task (before ++ [r]) st) =
      yielded st ++ ys1 ++ [y].
Proof.
  revert st ys1; induction frames as [|r0 frames IH]; intros st ys1 HY.
  - cbn [fold_left] in HY.
    rewrite <- (app_nil_r (yielded st)) in HY at 1.
    apply app_inv_head in HY; destruct ys1; discriminate.
  - cbn [fold_left] in HY.
    assert (forall st1,
               stream_task st r0 = st1 ->
               yielded st1 = yielded st \/
               exists y0, yielded st1 = yielded st ++ [y0] /\
                          currentContextId (suspended y0) = Some (contextId r0))
      as Hstep.
    { intros st1 <-; unfold stream_task.
      destruct (agent_text r0) as [t|]; [destruct (Nat.ltb _ _)|];
        cbn [yielded]; auto.
      right; eexists; split; reflexivity. }
    destruct (Hstep _ eq_refl) as [Hsame | (y0 & Hnew & Hctx)].
    + rewrite <- Hsame in HY.
      destruct (IH _ _ HY) as (before & r & after & -> & Hc & Hy).
      exists (r0 :: before), r, after; repeat split; trivial.
      cbn [app fold_left]; rewrite Hy, Hsame; reflexivity.
    + destruct (yielded_grows frames (stream_task st r0)) as [more Hmore].
      rewrite Hmore, Hnew, <- app_assoc in HY.
      apply app_inv_head in HY; cbn [app] in HY.
      destruct ys1 as [|y1 ys1]; cbn [app] in HY; injection HY as Hy0 Hrest.
      * subst y0.
        exists [], r0, frames; repeat split; trivial.
      * subst y1 more.
        rewrite Hnew, <- app_assoc in Hmore; cbn [app] in Hmore.
        assert (yielded (fold_left stream_task frames (stream_task st r0)) =
                yielded (stream_task st r0) ++ ys1 ++ y :: ys2) as HY'.
        { rewrite Hmore, Hnew, <- app_assoc; reflexivity. }
        destruct (IH _ _ HY') as (before & r & after & -> & Hc & Hy).
        exists (r0 :: before), r, after; repeat split; trivial.
        cbn [app fold_left]; rewrite Hy, Hnew, <- app_assoc; reflexivity.
Qed.

(** C10.  [stream] stores the context id of every decoded frame that carries
    a result, as soon as the frame is decoded: after any run that reached the
    loop - ended, failed on a read, or left waiting - the stored context id
    is that of the last decoded frame, and while the generator is suspended
    at a [yield] it is that of the frame being processed. *)
Theorem stream_stores_context_per_frame (s : Session) (text_ : jsstring)
        (response : Response Json) (reader : ReadableStream) :
  fetch (post_url s) (stream_payload s text_) = Resolved response ->
  status response <> 402 ->
  body response = Some reader ->
  (forall st line r,
      decode_frame line = Some r ->
      currentContextId (this (stream_line st line)) = Some (contextId r)) /\
  currentContextId (final (stream s text_)) =
    last (map (fun r => Some (contextId r)) (decoded_tasks (chunks reader)))
         (currentContextId s) /\
  (forall e, ending reader = ReadFails e ->
             completion (stream s text_) = Thrown (RuntimeError e)) /\
  (forall ys1 y ys2,
      yields (stream s text_) = ys1 ++ y :: ys2 ->
      exists before r after,
        decoded_tasks (chunks reader) = before ++ r :: after /\
        currentContextId (suspended y) = Some (contextId r) /\
        yielded (fold_left stream_task (before ++ [r])
                           (stream_start (next_request s))) = ys1 ++ [y]).
Proof.
  intros Hfetch Hstatus Hbody.
  rewrite (stream_run s text_ response reader Hfetch Hstatus Hbody).
  cbn [final completion yields].
  split; [|split; [|split]].
  - intros st line r Hframe.
    rewrite stream_line_frame, Hframe; apply stream_task_context.
  - apply fold_stream_task_context.
  - intros e ->; reflexivity.
  - intros ys1 y ys2 HY.
    apply (yield_has_frame _ (stream_start (next_request s)) ys1 y ys2 HY).
Qed.

End Frames.

(* ------------------------------------------------------------------------ *)
(** ** [send], [handleStreaming] and [continue] *)

Section Calls.

Context {P : Platform}.

(** A call of [handleStreaming] that reaches the loop. *)
Lemma handleStreaming_run (s : Session) (payload : Payload)
      (response : Response Json) (reader : ReadableStream) :
  fetch (post_url s) payload = Resolved response ->
  status response <> 402 ->
  body response = Some reader ->
  handleStreaming s payload =
  let st := fold_left handle_line (complete_lines (body_text (chunks reader)))
                      (None, [js "Agent: "]) in
  let n := S (List.length (chunks reader)) in
  match ending reader with
  | ReadFails e =>
      {| outcome := Thrown (RuntimeError e); session := s; reads := n;
         stdout := snd st |}
  | NeverCloses =>
      {| outcome := Pending; session := s; reads := n; stdout := snd st |}
  | EndOfData =>
      match fst st with
      | None =>
          {| outcome := Thrown (Error (js "No task received")); session := s;
             reads := n; stdout := snd st ++ [[newline; newline]] |}
      | Some t =>
          {| outcome := Returned t;
             session := set_context s (Some (contextId t));
             reads := n; stdout := snd st ++ [[newline; newline]] |}
      end
  end.
Proof.
  intros Hfetch Hstatus Hbody.
  unfold handleStreaming.
  rewrite Hfetch.
  apply N.eqb_neq in Hstatus; rewrite Hstatus, Hbody.
  rewrite read_loop_start; cbn [vars].
  destruct (fold_left handle_line _ _) as [lastTask out]; reflexivity.
Qed.

Lemma send_streaming (s : Session) (text_ : jsstring)
      (options : option SendOptions) :
  options_streaming options = true ->
  send s text_ options =
  handleStreaming (next_request s) (send_payload s text_ options).
Proof. intros H; unfold send; rewrite H; reflexivity. Qed.

(** C1.  A POST to [/a2a] answered with status 402 whose body is JSON makes
    the call throw [PaymentRequiredError] with that document as it is - from
    [send], unary or streaming, and from [stream] alike.  No read is issued
    on the body, nothing is yielded or written, and the stored context id
    stays: the document is not looked at as a JSON-RPC response. *)
Theorem payment_required_short_circuits (s : Session) (text_ : jsstring)
        (options : option SendOptions) (response : Response Json)
        (paymentInfo : Json) :
  status response = 402 ->
  json response = Resolved paymentInfo ->
  (fetch (post_url s) (send_payload s text_ options) = Resolved response ->
   outcome (send s text_ options) = Thrown (PaymentRequiredError paymentInfo) /\
   reads (send s text_ options) = 0%nat /\
   stdout (send s text_ options) = [] /\
   currentContextId (session (send s text_ options)) = currentContextId s) /\
  (fetch (post_url s) (stream_payload s text_) = Resolved response ->
   completion (stream s text_) = Thrown (PaymentRequiredError paymentInfo) /\
   stream_reads (stream s text_) = 0%nat /\
   yields (stream s text_) = [] /\
   currentContextId (final (stream s text_)) = currentContextId s).
Proof.
  intros Hstatus Hjson; split; intros Hfetch.
  - unfold send, handleStreaming.
    change (post_url (next_request s)) with (post_url s).
    destruct (options_streaming options);
      rewrite Hfetch, Hstatus, Hjson; repeat split.
  - unfold stream.
    change (post_url (next_request s)) with (post_url s).
    rewrite Hfetch, Hstatus, Hjson; repeat split.
Qed.

(** C6.  After a [send] that returns a Task, unary or streaming, the stored
    context id is the context id of that Task. *)
Theorem send_stores_returned_context (s : Session) (text_ : jsstring)
        (options : option SendOptions) (task : Task) :
  outcome (send s text_ options) = Returned task ->
  currentContextId (session (send s text_ options)) = Some (contextId task).
Proof.
  unfold send, handleStreaming, throws.
  destruct (options_streaming options).
  - destruct (fetch _ _) as [response|e]; [|discriminate].
    destruct (status response =? 402).
    { destruct (json response); discriminate. }
    destruct (body response) as [reader|]; [|discriminate].
    destruct (read_loop _ _ _ _) as [ls n].
    destruct (vars ls) as [lastTask out].
    destruct (ending reader); try discriminate.
    destruct lastTask as [t|]; [|discriminate].
    cbn; intros [= ->]; reflexivity.
  - destruct (fetch _ _) as [response|e]; [|discriminate].
    destruct (status response =? 402).
    { destruct (json response); discriminate. }
    destruct (json response) as [doc|e]; [|discriminate].
    destruct (error (as_JsonRpcResponse doc)); [discriminate|].
    destruct (result (as_JsonRpcResponse doc)) as [t|]; [|discriminate].
    cbn; intros [= ->]; reflexivity.
Qed.

(** C7, as amended.  A unary [send] whose POST is answered with any status
    other than 402, 2xx or not, reads the body as a JSON-RPC response and
    ends as the body says: a body that is not JSON makes it throw the
    runtime's error, an [error] member makes it throw [RPC Error: ...], a
    [result] is returned.  The status plays no further part. *)
Theorem unary_send_reads_body_whatever_status (s : Session) (text_ : jsstring)
        (options : option SendOptions) (response : Response Json) :
  options_streaming options = false ->
  fetch (post_url s) (send_payload s text_ options) = Resolved response ->
  status response <> 402 ->
  outcome (send s text_ options) =
  match json response with
  | Rejected e => Thrown (RuntimeError e)
  | Resolved doc =>
      match error (as_JsonRpcResponse doc) with
      | Some err => Thrown (Error (js "RPC Error: " ++ message err))
      | None =>
          match result (as_JsonRpcResponse doc) with
          | Some task => Returned task
          | None => Thrown (RuntimeError (js "TypeError"))
          end
      end
  end.
Proof.
  intros Hunary Hfetch Hstatus.
  unfold send; rewrite Hunary.
  change (post_url (next_request s)) with (post_url s).
  rewrite Hfetch.
  apply N.eqb_neq in Hstatus; rewrite Hstatus.
  destruct (json response) as [doc|e]; [|reflexivity].
  destruct (error (as_JsonRpcResponse doc)); [reflexivity|].
  destruct (result (as_JsonRpcResponse doc)); reflexivity.
Qed.

(** C9, as amended.  A streaming [send] over a body that ends - a read
    reports done - without one line decoding to a Task throws
    [No task received] and leaves the stored context id as it was. *)
Theorem streaming_send_without_task_fails (s : Session) (text_ : jsstring)
        (options : option SendOptions) (response : Response Json)
        (reader : ReadableStream) :
  options_streaming options = true ->
  fetch (post_url s) (send_payload s text_ options) = Resolved response ->
  status response <> 402 ->
  body response = Some reader ->
  ending reader = EndOfData ->
  decoded_tasks (chunks reader) = [] ->
  outcome (send s text_ options) = Thrown (Error (js "No task received")) /\
  currentContextId (session (send s text_ options)) = currentContextId s.
Proof.
  intros Hstreaming Hfetch Hstatus Hbody Hend Hnone.
  rewrite (send_streaming _ _ _ Hstreaming).
  rewrite (handleStreaming_run (next_request s) _ response reader
                               Hfetch Hstatus Hbody).
  cbn zeta; rewrite Hend, fold_handle_line.
  rewrite <- decoded_tasks_whole, Hnone; cbn.
  split; reflexivity.
Qed.

(** C5, as amended.  In both streaming paths a [data: [DONE]] line is
    skipped - it changes no variable of the loop - and reading goes on: the
    loop issues one read for every chunk the body delivers and one more,
    whatever the lines say. *)
Theorem reading_goes_on_after_done (s : Session) (text_ : jsstring)
        (options : option SendOptions) (response : Response Json)
        (reader : ReadableStream) :
  options_streaming options = true ->
  fetch (post_url s) (send_payload s text_ options) = Resolved response ->
  fetch (post_url s) (stream_payload s text_) = Resolved response ->
  status response <> 402 ->
  body response = Some reader ->
  (forall st, handle_line st (js "data: [DONE]") = st) /\
  (forall st, stream_line st (js "data: [DONE]") = st) /\
  reads (send s text_ options) = S (List.length (chunks reader)) /\
  stream_reads (stream s text_) = S (List.length (chunks reader)).
Proof.
  intros Hstreaming Hsend Hstream Hstatus Hbody.
  split; [intros [lastTask out]; reflexivity|].
  split; [intros st; reflexivity|].
  split.
  - rewrite (send_streaming _ _ _ Hstreaming).
    rewrite (handleStreaming_run (next_request s) _ response reader
                                 Hsend Hstatus Hbody).
    cbn zeta; destruct (ending reader); [destruct (fst _)| |]; reflexivity.
  - rewrite (stream_run s text_ response reader Hstream Hstatus Hbody).
    reflexivity.
Qed.

(** [send] has no error of its own with the message of [continue]. *)
Lemma send_not_no_conversation (s : Session) (text_ : jsstring)
      (options : option SendOptions) :
  outcome (send s text_ options) <>
  Thrown (Error (js "No active conversation. Call send() first.")).
Proof.
  unfold send, handleStreaming, throws.
  destruct (options_streaming options).
  - destruct (fetch _ _) as [response|e]; [|discriminate].
    destruct (status response =? 402).
    { destruct (json response); discriminate. }
    destruct (body response) as [reader|];
      [|cbn [outcome]; intros [= H]; vm_compute in H; discriminate].
    destruct (read_loop _ _ _ _) as [ls n].
    destruct (vars ls) as [lastTask out].
    destruct (ending reader); try discriminate.
    destruct lastTask as [t|]; [discriminate|].
    cbn [outcome]; intros [= H]; vm_compute in H; discriminate.
  - destruct (fetch _ _) as [response|e]; [|discriminate].
    destruct (status response =? 402).
    { destruct (json response); discriminate. }
    destruct (json response) as [doc|e]; [|discriminate].
    destruct (error (as_JsonRpcResponse doc)) as [err|].
    { cbn [outcome]; intros [= H]; vm_compute in H; discriminate. }
    destruct (result (as_JsonRpcResponse doc)); discriminate.
Qed.

(** C8, as amended.  [continue(text, streaming)] throws [No active
    conversation] exactly when the stored context id is absent or the empty
    string, and then sends nothing and changes nothing; with a non-empty
    stored context id it is [send] with that context id and the given
    streaming flag, both carried by the request, and returns what [send]
    returns. *)
Theorem continue_needs_nonempty_context (s : Session) (text_ : jsstring)
        (streaming : bool) :
  (outcome (continue s text_ streaming) =
     Thrown (Error (js "No active conversation. Call send() first."))
   <-> truthy (currentContextId s) = false) /\
  (truthy (currentContextId s) = false ->
   continue s text_ streaming =
   throws s (Error (js "No active conversation. Call send() first."))) /\
  (forall c,
      currentContextId s = Some c -> c <> [] ->
      let options := Some {| opt_contextId := Some c;
                             opt_streaming := Some streaming |} in
      continue s text_ streaming = send s text_ options /\
      configuration_contextId (send_payload s text_ options) = Some c /\
      configuration_streaming (send_payload s text_ options) = streaming).
Proof.
  split; [|split].
  - unfold continue.
    destruct (truthy (currentContextId s)); cbn [negb]; split; trivial.
    + intros H; exfalso; exact (send_not_no_conversation _ _ _ H).
    + discriminate.
  - intros H; unfold continue; rewrite H; reflexivity.
  - intros c Hc Hne options; subst options.
    unfold continue, send_payload; rewrite Hc.
    destruct c as [|x c]; [contradiction|].
    cbn; repeat split.
Qed.

End Calls.

(* ------------------------------------------------------------------------ *)
(** ** The properties on the test server *)

Import Fixture.

(** C2 on a body cut into single bytes and into lines. *)
Lemma chunking_does_not_matter_witness :
  List.concat (one_byte_chunks growing_body) =
  List.concat (line_chunks growing_body) /\
  decoded_tasks (P := server (Resolved growing_reply))
                (one_byte_chunks growing_body) =
  decoded_tasks (P := server (Resolved growing_reply))
                (line_chunks growing_body).
Proof.
  split; [vm_compute; reflexivity|].
  apply (chunking_does_not_matter (P := server (Resolved growing_reply))
           (one_byte_chunks growing_body) (line_chunks growing_body)).
  vm_compute; reflexivity.
Defined.

(** C3 on two frames, [Hel] then [Hello], read byte by byte. *)
Lemma stream_increments_concatenate_witness :
  extension_chain
    [] (agent_texts (decoded_tasks (P := server (Resolved growing_reply))
                                   (one_byte_chunks growing_body))) = true /\
  List.concat
    (map value (yields (stream (P := server (Resolved growing_reply))
                               fresh say_hello))) = js "Hello".
Proof.
  split; [vm_compute; reflexivity|].
  refine (eq_trans
            (proj1 (stream_increments_concatenate
                      (P := server (Resolved growing_reply))
                      fresh say_hello growing_reply
                      {| chunks := one_byte_chunks growing_body;
                         ending := EndOfData |}
                      eq_refl _ eq_refl _)) _).
  - discriminate.
  - vm_compute; reflexivity.
  - vm_compute; reflexivity.
Defined.

(** C4 fails: after [Hello], the frame [Goodbye!] does not extend the text,
    and [stream] yields [ye!], not the frame's full text. *)
Lemma non_extension_is_not_yielded_in_full :
  decoded_tasks (P := server (Resolved restart_reply))
                (chunks {| chunks := [bytes_of (sse [wire (frame hello);
                                                     wire (frame goodbye)])];
                           ending := EndOfData |}) = [hello; goodbye] /\
  agent_text hello = Some (js "Hello") /\
  agent_text goodbye = Some (js "Goodbye!") /\
  extends (js "Goodbye!") (js "Hello") = false /\
  map value (yields (stream (P := server (Resolved restart_reply))
                            fresh say_hello)) = [js "Hello"; js "ye!"] /\
  ~ In (js "Goodbye!")
       (map value (yields (stream (P := server (Resolved restart_reply))
                                  fresh say_hello))).
Proof.
  repeat split; try (vm_compute; reflexivity).
  vm_compute; intros [H | [H | []]]; discriminate.
Qed.

(** C4, as amended, on the line that carries [Goodbye!] after [Hello]. *)
Lemma stream_yields_past_last_length_witness :
  map value
      (yielded
         (stream_line (P := server (Resolved restart_reply))
                      {| this := fresh; lastText := js "Hello"; yielded := [] |}
                      (js "data: " ++ wire (frame goodbye)))) = [js "ye!"].
Proof.
  refine (eq_trans
            (f_equal (map value)
               (proj1 (stream_yields_past_last_length
                         (P := server (Resolved restart_reply))
                         {| this := fresh; lastText := js "Hello";
                            yielded := [] |}
                         (js "data: " ++ wire (frame goodbye))
                         goodbye (js "Goodbye!") _ _))) _);
    vm_compute; reflexivity.
Defined.

(** C5 fails: the sentinel is decoded from the first chunk, and both paths
    go on to read the second chunk and the end of the body - three reads -
    and use the frame that came after the sentinel; on a connection kept
    open after the sentinel both wait on a read for ever. *)
Lemma reads_are_issued_after_done :
  data_lines [done_first_chunk] = [js "[DONE]"] /\
  reads (send (P := server (Resolved done_first_reply))
              fresh say_hello streaming_on) = 3%nat /\
  outcome (send (P := server (Resolved done_first_reply))
                fresh say_hello streaming_on) = Returned hello /\
  stream_reads (stream (P := server (Resolved done_first_reply))
                       fresh say_hello) = 3%nat /\
  map value (yields (stream (P := server (Resolved done_first_reply))
                            fresh say_hello)) = [js "Hello"] /\
  outcome (send (P := server (Resolved kept_open_reply))
                fresh say_hello streaming_on) = Pending /\
  reads (send (P := server (Resolved kept_open_reply))
              fresh say_hello streaming_on) = 2%nat /\
  completion (stream (P := server (Resolved kept_open_reply))
                     fresh say_hello) = Pending.
Proof. repeat split; vm_compute; reflexivity. Qed.

(** C5, as amended, on the body with the sentinel in its first chunk. *)
Lemma reading_goes_on_after_done_witness :
  reads (send (P := server (Resolved done_first_reply))
              fresh say_hello streaming_on) = 3%nat /\
  stream_reads (stream (P := server (Resolved done_first_reply))
                       fresh say_hello) = 3%nat.
Proof.
  refine (proj2 (proj2 (reading_goes_on_after_done
                          (P := server (Resolved done_first_reply))
                          fresh say_hello streaming_on done_first_reply
                          {| chunks := [done_first_chunk;
                                        bytes_of (sse [wire (frame hello)])];
                             ending := EndOfData |}
                          eq_refl eq_refl eq_refl _ eq_refl))).
  discriminate.
Defined.

(** C1 on a 402 whose body is [{ amount: 0.01 }]: unary [send], streaming
    [send] and [stream]. *)
Lemma payment_required_short_circuits_witness :
  outcome (send (P := server (Resolved payment_reply)) fresh say_hello None) =
    Thrown (PaymentRequiredError challenge) /\
  outcome (send (P := server (Resolved payment_reply))
                fresh say_hello streaming_on) =
    Thrown (PaymentRequiredError challenge) /\
  reads (send (P := server (Resolved payment_reply))
              fresh say_hello streaming_on) = 0%nat /\
  completion (stream (P := server (Resolved payment_reply)) fresh say_hello) =
    Thrown (PaymentRequiredError challenge) /\
  stream_reads (stream (P := server (Resolved payment_reply))
                       fresh say_hello) = 0%nat.
Proof.
  pose proof (payment_required_short_circuits
                (P := server (Resolved payment_reply))
                fresh say_hello None payment_reply challenge
                eq_refl eq_refl) as [Hunary _].
  pose proof (payment_required_short_circuits
                (P := server (Resolved payment_reply))
                fresh say_hello streaming_on payment_reply challenge
                eq_refl eq_refl) as [Hstreaming Hstream].
  destruct (Hunary eq_refl) as (H1 & _).
  destruct (Hstreaming eq_refl) as (H2 & H3 & _).
  destruct (Hstream eq_refl) as (H4 & H5 & _).
  repeat split; assumption.
Defined.

(** C6 on a unary and on a streaming [send]. *)
Lemma send_stores_returned_context_witness :
  currentContextId
    (session (send (P := server (Resolved hello_reply)) fresh say_hello None)) =
    Some (js "ctx-1") /\
  currentContextId
    (session (send (P := server (Resolved growing_reply))
                   fresh say_hello streaming_on)) = Some (js "ctx-1").
Proof.
  split.
  - apply (send_stores_returned_context
             (P := server (Resolved hello_reply)) fresh say_hello None hello).
    vm_compute; reflexivity.
  - apply (send_stores_returned_context
             (P := server (Resolved growing_reply))
             fresh say_hello streaming_on hello).
    vm_compute; reflexivity.
Defined.

(** C7 fails: the POST is answered with status 500, neither 2xx nor 402,
    and the unary [send] returns the Task of the body. *)
Lemma unary_send_ignores_error_status :
  status error_status_reply = 500 /\
  fetch (Platform := server (Resolved error_status_reply))
        (post_url fresh) (send_payload fresh say_hello None) =
    Resolved error_status_reply /\
  outcome (send (P := server (Resolved error_status_reply))
                fresh say_hello None) = Returned hello /\
  currentContextId
    (session (send (P := server (Resolved error_status_reply))
                   fresh say_hello None)) = Some (js "ctx-1").
Proof. repeat split. Qed.

(** C7, as amended, on that answer. *)
Lemma unary_send_reads_body_whatever_status_witness :
  outcome (send (P := server (Resolved error_status_reply))
                fresh say_hello None) = Returned hello.
Proof.
  refine (unary_send_reads_body_whatever_status
            (P := server (Resolved error_status_reply))
            fresh say_hello None error_status_reply eq_refl eq_refl _).
  discriminate.
Defined.

(** C8 fails: a [send] answered with a Task whose context id is the empty
    string stores that context id, and [continue] then throws as if none
    were stored. *)
Lemma continue_rejects_stored_empty_context :
  outcome (send (P := server (Resolved empty_context_reply))
                fresh say_hello None) = Returned (says EmptyString "Hi") /\
  getContextId (after_send empty_context_reply) = Some [] /\
  outcome (continue (P := server (Resolved empty_context_reply))
                    (after_send empty_context_reply) say_hello false) =
    Thrown (Error (js "No active conversation. Call send() first.")).
Proof. repeat split. Qed.

(** C8, as amended, after a [send] that stored [ctx-1]. *)
Lemma continue_needs_nonempty_context_witness :
  continue (P := server (Resolved hello_reply))
           (after_send hello_reply) say_hello true =
  send (P := server (Resolved hello_reply))
       (after_send hello_reply) say_hello
       (Some {| opt_contextId := Some (js "ctx-1");
                opt_streaming := Some true |}) /\
  continue (P := server (Resolved hello_reply)) fresh say_hello true =
  throws fresh (Error (js "No active conversation. Call send() first.")).
Proof.
  destruct (continue_needs_nonempty_context
              (P := server (Resolved hello_reply))
              (after_send hello_reply) say_hello true)
    as (_ & _ & Hsend).
  destruct (continue_needs_nonempty_context
              (P := server (Resolved hello_reply)) fresh say_hello true)
    as (_ & Hthrow & _).
  split.
  - refine (proj1 (Hsend (js "ctx-1") eq_refl _)); discriminate.
  - exact (Hthrow eq_refl).
Defined.

(** C9, as amended, on a body with a malformed line and the sentinel only,
    that ends. *)
Lemma streaming_send_without_task_fails_witness :
  outcome (send (P := server (Resolved no_task_reply))
                fresh say_hello streaming_on) =
    Thrown (Error (js "No task received")) /\
  currentContextId
    (session (send (P := server (Resolved no_task_reply))
                   fresh say_hello streaming_on)) = None.
Proof.
  refine (streaming_send_without_task_fails
            (P := server (Resolved no_task_reply))
            fresh say_hello streaming_on no_task_reply
            {| chunks := [bytes_of (sse [js "{oops"; done_line])];
               ending := EndOfData |}
            eq_refl eq_refl _ eq_refl eq_refl _).
  - discriminate.
  - vm_compute; reflexivity.
Defined.

(** C10 on a body that breaks after one frame: [stream] throws, and the
    context id of that frame is stored. *)
Lemma stream_stores_context_per_frame_witness :
  currentContextId
    (final (stream (P := server (Resolved broken_reply)) fresh say_hello)) =
    Some (js "ctx-1") /\
  completion (stream (P := server (Resolved broken_reply)) fresh say_hello) =
    Thrown (RuntimeError (js "TypeError")).
Proof.
  destruct (stream_stores_context_per_frame
              (P := server (Resolved broken_reply))
              fresh say_hello broken_reply
              {| chunks := [bytes_of (sse [wire (frame hel)])];
                 ending := ReadFails (js "TypeError") |}
              eq_refl) as (_ & Hfinal & Hfails & _).
  - discriminate.
  - reflexivity.
  - split.
    + refine (eq_trans Hfinal _); vm_compute; reflexivity.
    + exact (Hfails (js "TypeError") eq_refl).
Defined.

(* ------------------------------------------------------------------------ *)
(** ** The session across calls *)

Section SessionFacts.

Context {P : Platform}.

(** The fields after [send]: the counter has moved; the context id is the
    returned Task's, or the old one when no Task is returned. *)
Lemma send_session (s : Session) (text_ : jsstring)
      (options : option SendOptions) :
  session (send s text_ options) =
  match outcome (send s text_ options) with
  | Returned task => set_context (next_request s) (Some (contextId task))
  | _ => next_request s
  end.
Proof.
  unfold send, handleStreaming, throws.
  destruct (options_streaming options).
  - destruct (fetch _ _) as [response|e]; [|reflexivity].
    destruct (status response =? 402).
    { destruct (json response); reflexivity. }
    destruct (body response) as [reader|]; [|reflexivity].
    destruct (read_loop _ _ _ _) as [ls n].
    destruct (vars ls) as [lastTask out].
    destruct (ending reader); try reflexivity.
    destruct lastTask; reflexivity.
  - destruct (fetch _ _) as [response|e]; [|reflexivity].
    destruct (status response =? 402).
    { destruct (json response); reflexivity. }
    destruct (json response) as [doc|e]; [|reflexivity].
    destruct (error (as_JsonRpcResponse doc)); [reflexivity|].
    destruct (result (as_JsonRpcResponse doc)); reflexivity.
Qed.

(** The loop of [stream] writes [currentContextId] and no other field. *)
Lemma fold_stream_task_this (frames : list Task) (st : StreamVars) :
  exists c, this (fold_left stream_task frames st) = set_context (this st) c.
Proof.
  revert st; induction frames as [|r frames IH]; intros st.
  - exists (currentContextId (this st)); cbn [fold_left].
    destruct (this st); reflexivity.
  - cbn [fold_left]; destruct (IH (stream_task st r)) as [c ->].
    exists c; unfold stream_task.
    destruct (agent_text r); [destruct (Nat.ltb _ _)|]; reflexivity.
Qed.

Lemma stream_final (s : Session) (text_ : jsstring) :
  exists c, final (stream s text_) = set_context (next_request s) c.
Proof.
  destruct (fetch (post_url s) (stream_payload s text_)) as [response|e]
    eqn:Hfetch.
  - destruct (status response =? 402) eqn:Hstatus.
    + exists (currentContextId s); unfold stream.
      change (post_url (next_request s)) with (post_url s).
      rewrite Hfetch, Hstatus; destruct (json response); reflexivity.
    + destruct (body response) as [reader|] eqn:Hbody.
      * apply N.eqb_neq in Hstatus.
        rewrite (stream_run s text_ response reader Hfetch Hstatus Hbody).
        cbn [final].
        apply (fold_stream_task_this _ (stream_start (next_request s))).
      * exists (currentContextId s); unfold stream.
        change (post_url (next_request s)) with (post_url s).
        rewrite Hfetch, Hstatus, Hbody; reflexivity.
  - exists (currentContextId s); unfold stream.
    change (post_url (next_request s)) with (post_url s).
    rewrite Hfetch; reflexivity.
Qed.

(** X1.  Every call of [send] and of [stream] moves [requestId] on by
    exactly one, whatever the outcome, and the request it posts carries the
    new value; neither changes [baseUrl].  [continue] that throws for want
    of a context id leaves the counter alone. *)
Theorem each_request_takes_the_next_id (s : Session) (text_ : jsstring)
        (options : option SendOptions) (streaming : bool) :
  requestId (session (send s text_ options)) = requestId s + 1 /\
  payload_id (send_payload s text_ options) =
    requestId (session (send s text_ options)) /\
  baseUrl (session (send s text_ options)) = baseUrl s /\
  requestId (final (stream s text_)) = requestId s + 1 /\
  payload_id (stream_payload s text_) = requestId (final (stream s text_)) /\
  baseUrl (final (stream s text_)) = baseUrl s /\
  (truthy (currentContextId s) = false ->
   session (continue s text_ streaming) = s).
Proof.
  assert (requestId (session (send s text_ options)) = requestId s + 1 /\
          baseUrl (session (send s text_ options)) = baseUrl s) as [Hn Hb].
  { rewrite send_session.
    destruct (outcome (send s text_ options)); split; reflexivity. }
  destruct (stream_final s text_) as [c Hc].
  rewrite Hn, Hb, Hc; cbn.
  repeat split.
  intros H; unfold continue; rewrite H; reflexivity.
Qed.

(** X2.  A [send] that does not return a Task - it throws, or waits for
    ever on the body - leaves the stored context id as it was, also when
    frames were decoded before a read failed. *)
Theorem failed_send_keeps_context (s : Session) (text_ : jsstring)
        (options : option SendOptions) :
  (forall task, outcome (send s text_ options) <> Returned task) ->
  currentContextId (session (send s text_ options)) = currentContextId s.
Proof.
  intros Hfail; rewrite send_session.
  destruct (outcome (send s text_ options)) as [task| |];
    [exfalso; exact (Hfail task eq_refl) | reflexivity | reflexivity].
Qed.

(** X3.  A streaming [send] over a body that ends returns the last Task
    decoded from it, whatever the Tasks before it were. *)
Theorem streaming_send_returns_last_task (s : Session) (text_ : jsstring)
        (options : option SendOptions) (response : Response Json)
        (reader : ReadableStream) (before : list Task) (t : Task) :
  options_streaming options = true ->
  fetch (post_url s) (send_payload s text_ options) = Resolved response ->
  status response <> 402 ->
  body response = Some reader ->
  ending reader = EndOfData ->
  decoded_tasks (chunks reader) = before ++ [t] ->
  outcome (send s text_ options) = Returned t.
Proof.
  intros Hstreaming Hfetch Hstatus Hbody Hend Hframes.
  rewrite (send_streaming _ _ _ Hstreaming).
  rewrite (handleStreaming_run (next_request s) _ response reader
                               Hfetch Hstatus Hbody).
  cbn zeta; rewrite Hend, fold_handle_line.
  rewrite <- decoded_tasks_whole, Hframes, map_app; cbn [map].
  rewrite last_last; reflexivity.
Qed.

(** X4.  The context id in the request of [send]: a non-empty [contextId]
    option wins over the stored one, an absent or empty option falls back to
    the stored one, and an empty context id is never sent. *)
Theorem send_request_context (s : Session) (text_ : jsstring)
        (options : option SendOptions) :
  configuration_contextId (send_payload s text_ options) <> Some [] /\
  (forall c, options_contextId options = Some c -> c <> [] ->
             configuration_contextId (send_payload s text_ options) = Some c) /\
  (truthy (options_contextId options) = false ->
   forall c, currentContextId s = Some c -> c <> [] ->
             configuration_contextId (send_payload s text_ options) = Some c) /\
  (truthy (options_contextId options) = false ->
   truthy (currentContextId s) = false ->
   configuration_contextId (send_payload s text_ options) = None).
Proof.
  unfold send_payload, or_else; cbn [configuration_contextId].
  split; [|split; [|split]].
  - destruct (options_contextId options) as [[|x c]|];
      destruct (currentContextId s) as [[|y d]|]; cbn; discriminate.
  - intros c -> Hne; destruct c; [contradiction|reflexivity].
  - intros Hopt c -> Hne; rewrite Hopt.
    destruct c; [contradiction|reflexivity].
  - intros Hopt Hcur; rewrite Hopt, Hcur; reflexivity.
Qed.

(** X5.  After a [send] that returned a Task with a non-empty context id,
    [continue] is a [send] whose request carries that context id and the
    next request id: the turn goes to the same conversation. *)
Theorem continue_carries_returned_context (s : Session) (text1 text2 : jsstring)
        (options : option SendOptions) (task : Task) (streaming : bool) :
  outcome (send s text1 options) = Returned task ->
  contextId task <> [] ->
  continue (session (send s text1 options)) text2 streaming =
    send (session (send s text1 options)) text2
         (Some {| opt_contextId := Some (contextId task);
                  opt_streaming := Some streaming |}) /\
  configuration_contextId
    (send_payload (session (send s text1 options)) text2
                  (Some {| opt_contextId := Some (contextId task);
                           opt_streaming := Some streaming |})) =
    Some (contextId task) /\
  payload_id
    (send_payload (session (send s text1 options)) text2
                  (Some {| opt_contextId := Some (contextId task);
                           opt_streaming := Some streaming |})) =
    payload_id (send_payload s text1 options) + 1.
Proof.
  intros Hret Hne.
  rewrite send_session, Hret.
  destruct (contextId task) as [|x c] eqn:E; [contradiction|].
  unfold continue, send_payload; cbn.
  repeat split.
Qed.

(** X6.  [newConversation] forgets the context id and nothing else: after
    it [getContextId] gives nothing, [continue] throws without sending, a
    [send] carries a context id only if its options give a non-empty one,
    and the request numbering goes on. *)
Theorem new_conversation_forgets_context (s : Session) (text_ : jsstring)
        (options : option SendOptions) (streaming : bool) :
  getContextId (newConversation s) = None /\
  continue (newConversation s) text_ streaming =
    throws (newConversation s)
           (Error (js "No active conversation. Call send() first.")) /\
  configuration_contextId (send_payload (newConversation s) text_ options) =
    (if truthy (options_contextId options) then options_contextId options
     else None) /\
  payload_id (send_payload (newConversation s) text_ options) =
    payload_id (send_payload s text_ options) /\
  baseUrl (newConversation s) = baseUrl s /\
  newConversation (newConversation s) = newConversation s.
Proof.
  repeat split.
  unfold send_payload, or_else; cbn.
  destruct (truthy (options_contextId options)) eqn:E; rewrite ?E; reflexivity.
Qed.

End SessionFacts.

(* ------------------------------------------------------------------------ *)
(** ** Lines, buffer and text *)

Lemma terminated_split_newline (t : jsstring) :
  terminated (removelast (split_newline t)) ++ last (split_newline t) [] = t.
Proof.
  induction t as [|c t IH]; [reflexivity|].
  cbn [split_newline].
  pose proof (split_newline_nonempty t) as Hne.
  destruct (c =? newline) eqn:E.
  - apply N.eqb_eq in E; subst c.
    destruct (split_newline t) as [|l ls]; [contradiction|].
    change (terminated (removelast ([] :: l :: ls)))
      with (newline :: terminated (removelast (l :: ls))).
    change (last ([] :: l :: ls) []) with (last (l :: ls) []).
    cbn [app]; rewrite IH; reflexivity.
  - destruct (split_newline t) as [|l ls]; [contradiction|].
    destruct ls as [|l' ls].
    + cbn in IH |- *; rewrite IH; reflexivity.
    + change (terminated (removelast ((c :: l) :: l' :: ls)))
        with (c :: (l ++ [newline]) ++ terminated (removelast (l' :: ls))).
      change (last ((c :: l) :: l' :: ls) []) with (last (l' :: ls) []).
      change (terminated (removelast (l :: l' :: ls)))
        with ((l ++ [newline]) ++ terminated (removelast (l' :: ls))) in IH.
      change (last (l :: l' :: ls) []) with (last (l' :: ls) []) in IH.
      cbn [app]; f_equal; exact IH.
Qed.

Lemma split_newline_fragments (t : jsstring) :
  Forall (fun l => ~ In newline l) (split_newline t).
Proof.
  induction t as [|c t IH]; [repeat constructor; intros []|].
  cbn [split_newline].
  destruct (c =? newline) eqn:E.
  - constructor; [intros []|exact IH].
  - destruct (split_newline t) as [|l ls]; [repeat constructor|].
    + intros [H|[]]; subst c; rewrite N.eqb_refl in E; discriminate.
    + inversion IH as [|? ? Hl Hls]; subst; constructor; [|exact Hls].
      intros [H|H]; [subst c; rewrite N.eqb_refl in E; discriminate|auto].
Qed.

Lemma split_newline_length (t : jsstring) :
  List.length (split_newline t) = S (newlines t).
Proof.
  induction t as [|c t IH]; [reflexivity|].
  unfold newlines in *; cbn [split_newline filter].
  destruct (c =? newline).
  - cbn [List.length]; rewrite IH; reflexivity.
  - destruct (split_newline t); [discriminate|exact IH].
Qed.

(** X7.  The read loop cuts the decoded text of the body at its newlines
    and loses nothing: the lines it hands to its body, each with its newline
    put back, followed by the buffer it is left with, are the text.  No line
    and no buffer holds a newline, and there are as many lines as newlines:
    what follows the last newline stays in the buffer and is never
    processed. *)
Theorem lines_and_buffer_make_the_text {St : Type}
        (on_line : St -> jsstring -> St) (values : list (list byte)) (v : St) :
  terminated (emitted_lines values) ++
    buffer (fst (read_loop on_line values (loop_start v) 0)) =
    body_text values /\
  Forall (fun l => ~ In newline l) (emitted_lines values) /\
  ~ In newline (buffer (fst (read_loop on_line values (loop_start v) 0))) /\
  List.length (emitted_lines values) = newlines (body_text values).
Proof.
  rewrite emitted_lines_whole, read_loop_start; cbn [fst buffer].
  unfold complete_lines.
  pose proof (split_newline_fragments (body_text values)) as Hall.
  pose proof (split_newline_length (body_text values)) as Hlen.
  rewrite (app_removelast_last [] (split_newline_nonempty (body_text values)))
    in Hall, Hlen.
  apply Forall_app in Hall; destruct Hall as [Hlines Hlast].
  inversion Hlast as [|? ? Hbuffer _]; subst.
  rewrite length_app in Hlen; cbn [List.length] in Hlen.
  split; [apply terminated_split_newline|].
  split; [exact Hlines|].
  split; [exact Hbuffer|].
  rewrite Nat.add_1_r in Hlen; injection Hlen as Hlen; exact Hlen.
Qed.

(* ------------------------------------------------------------------------ *)
(** ** More on [stream] and the streaming [send] *)

Section StreamFacts.

Context {P : Platform}.

(** Lengths across the frames: [lastText] is as long as the longest text
    seen, the yielded values add up to what [lastText] has grown by, and
    none of them is empty. *)
Lemma stream_task_lengths (frames : list Task) (st : StreamVars) :
  let st' := fold_left stream_task frames st in
  length (lastText st') =
    Nat.max (length (lastText st)) (longest (agent_texts frames)) /\
  (List.length (List.concat (map value (yielded st'))) + length (lastText st) =
   List.length (List.concat (map value (yielded st))) + length (lastText st'))%nat /\
  (Forall (fun y => value y <> []) (yielded st) ->
   Forall (fun y => value y <> []) (yielded st')).
Proof.
  revert st; induction frames as [|r frames IH]; intros st.
  - cbn; repeat split; trivial; lia.
  - cbn [fold_left agent_texts].
    set (st1 := stream_task st r).
    assert (length (lastText st1) =
              Nat.max (length (lastText st))
                      (match agent_text r with
                       | Some t => length t
                       | None => 0%nat
                       end) /\
            (List.length (List.concat (map value (yielded st1))) +
             length (lastText st) =
             List.length (List.concat (map value (yielded st))) +
             length (lastText st1))%nat /\
            (Forall (fun y => value y <> []) (yielded st) ->
             Forall (fun y => value y <> []) (yielded st1)))
      as (S1 & S2 & S3).
    { subst st1; unfold stream_task.
      destruct (agent_text r) as [t|]; cbn [lastText yielded];
        [|repeat split; trivial; lia].
      destruct (Nat.ltb (length (lastText st)) (length t)) eqn:Hlt;
        cbn [lastText yielded].
      - apply Nat.ltb_lt in Hlt.
        rewrite map_app, concat_app, length_app.
        cbn [map List.concat value].
        rewrite app_nil_r; unfold slice, length in *.
        rewrite length_skipn.
        split; [lia|split; [lia|]].
        intros Hall; apply Forall_app; split; [exact Hall|].
        constructor; [|constructor]; cbn [value].
        intros Hempty; apply (f_equal (@List.length N)) in Hempty.
        rewrite length_skipn in Hempty; cbn in Hempty; lia.
      - apply Nat.ltb_ge in Hlt; unfold length in *.
        split; [lia|split; [lia|trivial]]. }
    destruct (IH st1) as (H1 & H2 & H3); cbn zeta in *.
    split; [|split; [lia|auto]].
    rewrite H1, S1; unfold longest, list_max.
    destruct (agent_text r); cbn [map fold_right]; lia.
Qed.

(** X8.  [stream] never yields an empty string, and the lengths of the
    values it yields add up to the length of the longest agent text among
    the decoded frames, whether or not the texts extend each other. *)
Theorem stream_yields_up_to_longest_text (s : Session) (text_ : jsstring)
        (response : Response Json) (reader : ReadableStream) :
  fetch (post_url s) (stream_payload s text_) = Resolved response ->
  status response <> 402 ->
  body response = Some reader ->
  Forall (fun y => value y <> []) (yields (stream s text_)) /\
  List.length (List.concat (map value (yields (stream s text_)))) =
    longest (agent_texts (decoded_tasks (chunks reader))).
Proof.
  intros Hfetch Hstatus Hbody.
  rewrite (stream_run s text_ response reader Hfetch Hstatus Hbody).
  cbn [yields].
  destruct (stream_task_lengths (decoded_tasks (chunks reader))
                                (stream_start (next_request s)))
    as (H1 & H2 & H3).
  cbn in H1, H2, H3.
  split; [apply H3; constructor|].
  unfold length in *; lia.
Qed.

(** What a line that is a frame adds to the output of [handleStreaming]. *)
Lemma handle_line_output (st : option Task * list jsstring) (line : jsstring) :
  snd (handle_line st line) =
  snd st ++
  match decode_frame line with
  | Some r =>
      match agent_text r with
      | Some t => [js (String "013" "Agent: ") ++ t]
      | None => []
      end
  | None => []
  end.
Proof.
  unfold handle_line, decode_frame, agent_text; destruct st as [lastTask out].
  cbn [snd].
  destruct (startsWith line (js "data: ")); [|symmetry; apply app_nil_r].
  destruct (eqb (slice line 6) (js "[DONE]")); [symmetry; apply app_nil_r|].
  destruct (JSON_parse (slice line 6)) as [doc|]; [|symmetry; apply app_nil_r].
  destruct (result (as_JsonRpcResponse doc)) as [r|];
    [|symmetry; apply app_nil_r].
  destruct (find_agent r) as [m|]; [|symmetry; apply app_nil_r].
  destruct (parts m); [symmetry; apply app_nil_r|reflexivity].
Qed.

Lemma fold_handle_line_output (lines : list jsstring)
      (st : option Task * list jsstring) :
  snd (fold_left handle_line lines st) =
  snd st ++
  map (fun t => js (String "013" "Agent: ") ++ t)
      (agent_texts (somes decode_frame lines)).
Proof.
  revert st; induction lines as [|line lines IH]; intros st.
  - cbn; rewrite app_nil_r; reflexivity.
  - cbn [fold_left somes]; rewrite IH, handle_line_output.
    destruct (decode_frame line) as [r|]; [|rewrite app_nil_r; reflexivity].
    cbn [agent_texts]; destruct (agent_text r);
      [rewrite <- app_assoc|rewrite app_nil_r]; reflexivity.
Qed.

(** X9.  What a streaming [send] over a body that ends writes to standard
    output: [Agent: ] once, then a carriage return, [Agent: ] and the text
    for every decoded frame that has an agent text, in order, then two
    newlines. *)
Theorem streaming_send_output (s : Session) (text_ : jsstring)
        (options : option SendOptions) (response : Response Json)
        (reader : ReadableStream) :
  options_streaming options = true ->
  fetch (post_url s) (send_payload s text_ options) = Resolved response ->
  status response <> 402 ->
  body response = Some reader ->
  ending reader = EndOfData ->
  stdout (send s text_ options) =
    [js "Agent: "] ++
    map (fun t => js (String "013" "Agent: ") ++ t)
        (agent_texts (decoded_tasks (chunks reader))) ++
    [[newline; newline]].
Proof.
  intros Hstreaming Hfetch Hstatus Hbody Hend.
  rewrite (send_streaming _ _ _ Hstreaming).
  rewrite (handleStreaming_run (next_request s) _ response reader
                               Hfetch Hstatus Hbody).
  cbn zeta; rewrite Hend, decoded_tasks_whole.
  pose proof (fold_handle_line_output
                (complete_lines (body_text (chunks reader)))
                (None, [js "Agent: "])) as Hout.
  cbn [snd] in Hout.
  destruct (fst _); cbn [stdout]; rewrite Hout, <- app_assoc; reflexivity.
Qed.

(** The fields after a run of [stream] that reached the loop. *)
Lemma stream_final_context (s : Session) (text_ : jsstring)
      (response : Response Json) (reader : ReadableStream) :
  fetch (post_url s) (stream_payload s text_) = Resolved response ->
  status response <> 402 ->
  body response = Some reader ->
  final (stream s text_) =
  set_context (next_request s)
              (last (map (fun r => Some (contextId r))
                         (decoded_tasks (chunks reader)))
                    (currentContextId s)).
Proof.
  intros Hfetch Hstatus Hbody.
  rewrite (stream_run s text_ response reader Hfetch Hstatus Hbody).
  cbn [final].
  destruct (fold_stream_task_this (decoded_tasks (chunks reader))
                                  (stream_start (next_request s))) as [c Hc].
  pose proof (fold_stream_task_context (decoded_tasks (chunks reader))
                                       (stream_start (next_request s))) as Hctx.
  rewrite Hc in Hctx |- *; cbn in Hctx; rewrite Hctx; reflexivity.
Qed.

(** X10.  Over the same answer with a body that ends, [stream] and the
    streaming [send] leave the object with the same fields: the same stored
    context id (that of the last decoded Task, or the old one when there is
    none) and the same request counter. *)
Theorem stream_and_streaming_send_agree (s : Session) (text_ : jsstring)
        (options : option SendOptions) (response : Response Json)
        (reader : ReadableStream) :
  options_streaming options = true ->
  fetch (post_url s) (send_payload s text_ options) = Resolved response ->
  fetch (post_url s) (stream_payload s text_) = Resolved response ->
  status response <> 402 ->
  body response = Some reader ->
  ending reader = EndOfData ->
  final (stream s text_) = session (send s text_ options).
Proof.
  intros Hstreaming Hsend Hstream Hstatus Hbody Hend.
  rewrite (stream_final_context s text_ response reader Hstream Hstatus Hbody).
  rewrite (send_streaming _ _ _ Hstreaming).
  rewrite (handleStreaming_run (next_request s) _ response reader
                               Hsend Hstatus Hbody).
  cbn zeta; rewrite Hend, fold_handle_line, <- decoded_tasks_whole.
  cbn [fst].
  destruct (decoded_tasks (chunks reader)) as [|t0 frames] using rev_ind.
  - cbn; destruct s; reflexivity.
  - rewrite !map_app; cbn [map]; rewrite !last_last; reflexivity.
Qed.

(** X11.  The request of [stream] is the request of a [send] with
    [streaming] on and no context option, but for one case: a stored context
    id that is the empty string is sent by [stream] and left out by
    [send]. *)
Theorem stream_request_is_streaming_send_request (s : Session)
        (text_ : jsstring) :
  (currentContextId s <> Some [] ->
   stream_payload s text_ =
   send_payload s text_ (Some {| opt_contextId := None;
                                 opt_streaming := Some true |})) /\
  (currentContextId s = Some [] ->
   configuration_contextId (stream_payload s text_) = Some [] /\
   configuration_contextId
     (send_payload s text_ (Some {| opt_contextId := None;
                                    opt_streaming := Some true |})) = None).
Proof.
  unfold stream_payload, send_payload, or_else; cbn.
  split.
  - intros Hne; destruct (currentContextId s) as [[|x c]|];
      [contradiction Hne| |]; reflexivity.
  - intros ->; split; reflexivity.
Qed.

(** X12.  A frame that carries an [error] member and no [result] is passed
    over by both streaming loops - no variable changes, nothing is thrown -
    while the same document as the body of a unary answer makes [send]
    throw [RPC Error: ...]. *)
Theorem streamed_error_is_passed_over (data : jsstring) (doc : Json)
        (err : RpcError) :
  JSON_parse data = Some doc ->
  result (as_JsonRpcResponse doc) = None ->
  error (as_JsonRpcResponse doc) = Some err ->
  (forall st, handle_line st (js "data: " ++ data) = st) /\
  (forall st, stream_line st (js "data: " ++ data) = st) /\
  (forall s text_ options response,
      options_streaming options = false ->
      fetch (post_url s) (send_payload s text_ options) = Resolved response ->
      status response <> 402 ->
      json response = Resolved doc ->
      outcome (send s text_ options) =
        Thrown (Error (js "RPC Error: " ++ message err))).
Proof.
  intros Hparse Hresult Herror.
  assert (startsWith (js "data: " ++ data) (js "data: ") = true) as Hstarts
      by reflexivity.
  assert (slice (js "data: " ++ data) 6 = data) as Hslice by reflexivity.
  split; [|split].
  - intros [lastTask out]; unfold handle_line.
    rewrite Hstarts, Hslice, Hparse, Hresult.
    destruct (eqb data (js "[DONE]")); reflexivity.
  - intros st; unfold stream_line.
    rewrite Hstarts, Hslice, Hparse, Hresult.
    destruct (eqb data (js "[DONE]")); reflexivity.
  - intros s text_ options response Hunary Hfetch Hstatus Hjson.
    unfold send; rewrite Hunary.
    change (post_url (next_request s)) with (post_url s).
    rewrite Hfetch.
    apply N.eqb_neq in Hstatus; rewrite Hstatus, Hjson, Herror.
    reflexivity.
Qed.

End StreamFacts.

(* ------------------------------------------------------------------------ *)
(** ** [discover] *)

Section DiscoverFacts.

Context {P : Platform} {D : Discovery}.

(** X13.  [discover] throws [Failed to fetch agent card: <status>] exactly
    when the GET is answered with a status outside 200-299 - a 402 too is
    this plain error, not [PaymentRequiredError] - and otherwise gives the
    document of the body as the card, or throws what parsing the body
    threw. *)
Theorem discover_fails_outside_2xx (s : Session) (response : Response Json) :
  fetch_get (card_url s) = Resolved response ->
  (discover s =
     Thrown (Error (js "Failed to fetch agent card: " ++
                    number_text (status response)))
   <-> (status response < 200 \/ 299 < status response)) /\
  (200 <= status response <= 299 ->
   discover s =
   match json response with
   | Resolved doc => Returned (as_AgentCard doc)
   | Rejected e => Thrown (RuntimeError e)
   end).
Proof.
  intros Hfetch; unfold discover, ok; rewrite Hfetch.
  destruct (200 <=? status response) eqn:Hlow;
    destruct (status response <=? 299) eqn:Hhigh; cbn [andb negb];
    rewrite ?N.leb_le, ?N.leb_gt in *.
  - split; [split|reflexivity].
    + destruct (json response); discriminate.
    + lia.
  - split; [split; [lia|reflexivity]|lia].
  - split; [split; [lia|reflexivity]|lia].
  - split; [split; [lia|reflexivity]|lia].
Qed.

End DiscoverFacts.

(* ------------------------------------------------------------------------ *)
(** ** These properties on the test server *)

Import Fixture2.

(** X1: [continue] on a fresh session takes no request id. *)
Lemma each_request_takes_the_next_id_witness :
  session (continue (P := server (Resolved hello_reply))
                    fresh say_hello false) = fresh /\
  requestId (session (send (P := server (Resolved hello_reply))
                           fresh say_hello None)) = 1.
Proof.
  destruct (each_request_takes_the_next_id
              (P := server (Resolved hello_reply))
              fresh say_hello None false) as (Hn & _ & _ & _ & _ & _ & Hc).
  split; [exact (Hc eq_refl) | exact Hn].
Defined.

(** X2 on a body that breaks after a frame was decoded. *)
Lemma failed_send_keeps_context_witness :
  decoded_tasks (P := server (Resolved broken_reply))
                [bytes_of (sse [wire (frame hel)])] = [hel] /\
  currentContextId
    (session (send (P := server (Resolved broken_reply))
                   fresh say_hello streaming_on)) = None.
Proof.
  split; [vm_compute; reflexivity|].
  apply (failed_send_keeps_context (P := server (Resolved broken_reply))
                                   fresh say_hello streaming_on).
  intros task; vm_compute; discriminate.
Defined.

(** X3 on the frames [Hel], [Hello]. *)
Lemma streaming_send_returns_last_task_witness :
  outcome (send (P := server (Resolved growing_reply))
                fresh say_hello streaming_on) = Returned hello.
Proof.
  refine (streaming_send_returns_last_task
            (P := server (Resolved growing_reply))
            fresh say_hello streaming_on growing_reply
            {| chunks := one_byte_chunks growing_body; ending := EndOfData |}
            [hel] hello eq_refl eq_refl _ eq_refl eq_refl _).
  - discriminate.
  - vm_compute; reflexivity.
Defined.

(** X4: an explicit context id in a session that has another one. *)
Lemma send_request_context_witness :
  configuration_contextId
    (send_payload in_conversation say_hello
                  (Some {| opt_contextId := Some (js "ctx-9");
                           opt_streaming := None |})) = Some (js "ctx-9") /\
  configuration_contextId
    (send_payload in_conversation say_hello
                  (Some {| opt_contextId := Some [];
                           opt_streaming := None |})) = Some (js "ctx-1").
Proof.
  split.
  - refine (proj1 (proj2 (send_request_context
                            in_conversation say_hello
                            (Some {| opt_contextId := Some (js "ctx-9");
                                     opt_streaming := None |})))
                  (js "ctx-9") eq_refl _).
    discriminate.
  - refine (proj1 (proj2 (proj2 (send_request_context
                                   in_conversation say_hello
                                   (Some {| opt_contextId := Some [];
                                            opt_streaming := None |}))))
                  eq_refl (js "ctx-1") eq_refl _).
    discriminate.
Defined.

(** X5 after a first [send] that returned [ctx-1]. *)
Lemma continue_carries_returned_context_witness :
  configuration_contextId
    (send_payload (after_send hello_reply) say_hello
                  (Some {| opt_contextId := Some (js "ctx-1");
                           opt_streaming := Some false |})) =
    Some (js "ctx-1").
Proof.
  refine (proj1 (proj2 (continue_carries_returned_context
                          (P := server (Resolved hello_reply))
                          fresh say_hello say_hello None hello false
                          eq_refl _))).
  discriminate.
Defined.

(** X8 on [Hello] then [Goodbye!]: five and three code units yielded. *)
Lemma stream_yields_up_to_longest_text_witness :
  List.length
    (List.concat
       (map value (yields (stream (P := server (Resolved restart_reply))
                                  fresh say_hello)))) = 8%nat.
Proof.
  refine (eq_trans
            (proj2 (stream_yields_up_to_longest_text
                      (P := server (Resolved restart_reply))
                      fresh say_hello restart_reply
                      {| chunks := [bytes_of (sse [wire (frame hello);
                                                   wire (frame goodbye)])];
                         ending := EndOfData |}
                      eq_refl _ eq_refl)) _).
  - discriminate.
  - vm_compute; reflexivity.
Defined.

(** X9 on the frames [Hel], [Hello]. *)
Lemma streaming_send_output_witness :
  stdout (send (P := server (Resolved growing_reply))
               fresh say_hello streaming_on) =
  [js "Agent: "; js (String "013" "Agent: Hel");
   js (String "013" "Agent: Hello"); [newline; newline]].
Proof.
  refine (eq_trans
            (streaming_send_output
               (P := server (Resolved growing_reply))
               fresh say_hello streaming_on growing_reply
               {| chunks := one_byte_chunks growing_body;
                  ending := EndOfData |}
               eq_refl eq_refl _ eq_refl eq_refl) _).
  - discriminate.
  - vm_compute; reflexivity.
Defined.

(** X10 on the frames [Hel], [Hello]. *)
Lemma stream_and_streaming_send_agree_witness :
  final (stream (P := server (Resolved growing_reply)) fresh say_hello) =
  session (send (P := server (Resolved growing_reply))
                fresh say_hello streaming_on).
Proof.
  refine (stream_and_streaming_send_agree
            (P := server (Resolved growing_reply))
            fresh say_hello streaming_on growing_reply
            {| chunks := one_byte_chunks growing_body; ending := EndOfData |}
            eq_refl eq_refl eq_refl _ eq_refl eq_refl).
  discriminate.
Defined.

(** X11 with a stored context id, and with the empty one. *)
Lemma stream_request_is_streaming_send_request_witness :
  stream_payload in_conversation say_hello =
    send_payload in_conversation say_hello streaming_on /\
  configuration_contextId (stream_payload in_empty_context say_hello) =
    Some [] /\
  configuration_contextId
    (send_payload in_empty_context say_hello streaming_on) = None.
Proof.
  split.
  - refine (proj1 (stream_request_is_streaming_send_request
                     in_conversation say_hello) _).
    discriminate.
  - exact (proj2 (stream_request_is_streaming_send_request
                    in_empty_context say_hello) eq_refl).
Defined.

(** X12 on the document [{ error: { code: -32603, ... } }]. *)
Lemma streamed_error_is_passed_over_witness :
  stream_line (P := error_server (Resolved error_stream_reply))
              (stream_start fresh) (js "data: " ++ error_wire) =
    stream_start fresh /\
  outcome (send (P := error_server (Resolved error_unary_reply))
                fresh say_hello None) =
    Thrown (Error (js "RPC Error: Internal error")).
Proof.
  split.
  - exact (proj1 (proj2 (streamed_error_is_passed_over
                           (P := error_server (Resolved error_stream_reply))
                           error_wire error_doc internal_error
                           eq_refl eq_refl eq_refl))
                 (stream_start fresh)).
  - refine (proj2 (proj2 (streamed_error_is_passed_over
                            (P := error_server (Resolved error_unary_reply))
                            error_wire error_doc internal_error
                            eq_refl eq_refl eq_refl))
                  fresh say_hello None error_unary_reply
                  eq_refl eq_refl _ eq_refl).
    discriminate.
Defined.

(** X13 on a discovery answered with 402. *)
Lemma discover_fails_outside_2xx_witness :
  discover (D := discovery (Resolved payment_reply)) fresh =
  Thrown (Error (js "Failed to fetch agent card: 402")).
Proof.
  refine (proj2 (proj1 (discover_fails_outside_2xx
                          (D := discovery (Resolved payment_reply))
                          fresh payment_reply eq_refl)) _).
  right; reflexivity.
Defined.

(** X7 on a body whose last line lacks its newline: that line stays in the
    buffer. *)
Lemma lines_and_buffer_make_the_text_witness :
  terminated (emitted_lines [cut_short_body]) ++
    js "data: " ++ wire (frame hello) =
  body_text [cut_short_body].
Proof.
  exact (proj1 (lines_and_buffer_make_the_text
                  (fun (n : nat) (_ : jsstring) => n) [cut_short_body] 0%nat)).
Defined.

(** C9 fails: a body that holds the sentinel only decodes to no Task, and on
    a connection the server keeps open the streaming [send] waits on a read
    for ever - it throws nothing; on a connection that breaks it throws the
    error of the read, not [No task received]. *)
Lemma streaming_send_without_task_may_wait :
  decoded_tasks (P := server (Resolved done_kept_open_reply))
                [bytes_of (sse [done_line])] = [] /\
  outcome (send (P := server (Resolved done_kept_open_reply))
                fresh say_hello streaming_on) = Pending /\
  outcome (send (P := server (Resolved done_kept_open_reply))
                fresh say_hello streaming_on) <>
    Thrown (Error (js "No task received")) /\
  outcome (send (P := server (Resolved done_broken_reply))
                fresh say_hello streaming_on) =
    Thrown (RuntimeError (js "TypeError")).
Proof.
  repeat split; try (vm_compute; reflexivity).
  vm_compute; discriminate.
Qed.
